(** * CMIP6 cookbook: the alignment and diagnostic pipeline of the notebooks

    A shallow embedding of the Python cells of
    - [notebooks/example-workflows/ecs-cmip6.ipynb] (equilibrium climate
      sensitivity, module [Ecs]),
    - the global-mean-surface-temperature notebook (module [Gmst]),
    - [notebooks/example-workflows/xesmf-ohu.ipynb] (ocean heat uptake,
      module [Ohu]),
    followed by the properties of these cells.

    Conventions.
    - A Python exception is a value of [exn]; a computation that may raise
      returns a [result].
    - A NumPy [float64] is a [float]: an exact rational, an infinity or NaN.
      Rounding and the sign of zero are not modelled; arithmetic on finite
      values is exact.
    - What a library call does (NumPy, xarray) is written out as a function
      on these data.  Taken as parameters are [np.cos (np.deg2rad x)]
      ([cosd]), the outcome of [xr.merge] on opened datasets ([merge]) and
      the regridding of one model ([body]). *)

From Stdlib Require Import List String Ascii Bool Arith ZArith QArith Qabs.
From Stdlib Require Import Lia Lqa Permutation Sorted Mergesort Orders.
From Stdlib Require Import DecimalString Decimal.
Import ListNotations.

Local Open Scope string_scope.
Local Open Scope list_scope.

(** ** Python values and control *)

Module Py.

(** The exceptions the cells can raise. *)
Inductive exn : Type :=
| RuntimeError (msg : string)
| ValueError (msg : string)
| TypeError (msg : string)
| KeyError (key : string)
| IndexError (msg : string)
| AttributeError (msg : string)
| LinAlgError (msg : string).

Inductive result (A : Type) : Type :=
| Ok (a : A)
| Raise (e : exn).
Arguments Ok {A} a.
Arguments Raise {A} e.

Definition bind {A B} (r : result A) (k : A -> result B) : result B :=
  match r with
  | Ok a => k a
  | Raise e => Raise e
  end.

(** [mapM f l]: a list comprehension whose body may raise; the first
    exception ends it. *)
Fixpoint mapM {A B} (f : A -> result B) (l : list A) : result (list B) :=
  match l with
  | [] => Ok []
  | a :: l' =>
      bind (f a) (fun b => bind (mapM f l') (fun bs => Ok (b :: bs)))
  end.

(** [needle in hay] on [str]. *)
Fixpoint contains (needle hay : string) : bool :=
  match hay with
  | EmptyString => String.prefix needle EmptyString
  | String _ hay' => String.prefix needle hay || contains needle hay'
  end.

(** [str(n)] for a non-negative [int]. *)
Definition str_of_nat (n : nat) : string :=
  NilEmpty.string_of_uint (Nat.to_uint n).

(** [c * n] for a one-character string [c]. *)
Fixpoint repeat_char (c : ascii) (n : nat) : string :=
  match n with
  | O => EmptyString
  | S n' => String c (repeat_char c n')
  end.

(** [s.split(sep)] for a one-character separator: the fields between
    the separators, at least one field. *)
Fixpoint split_aux (sep : ascii) (cur : string) (s : string) : list string :=
  match s with
  | EmptyString => [cur]
  | String c s' =>
      if Ascii.eqb c sep then cur :: split_aux sep EmptyString s'
      else split_aux sep (cur ++ String c EmptyString)%string s'
  end.

Definition split (sep : ascii) (s : string) : list string :=
  split_aux sep EmptyString s.

(** [l[i]] for [i >= 0]. *)
Definition getitem {A} (l : list A) (i : nat) : result A :=
  match nth_error l i with
  | Some a => Ok a
  | None => Raise (IndexError "list index out of range")
  end.

(** [zip(a, b)] stops at the shorter argument. *)
Fixpoint zip {A B} (a : list A) (b : list B) : list (A * B) :=
  match a, b with
  | x :: a', y :: b' => (x, y) :: zip a' b'
  | _, _ => []
  end.

(** A [dict] keeps its keys in insertion order; assigning to a key that
    is present replaces the value in place. *)
Definition dict (V : Type) : Type := list (string * V).

Fixpoint dict_get {V} (d : dict V) (k : string) : option V :=
  match d with
  | [] => None
  | (k', v) :: d' => if String.eqb k' k then Some v else dict_get d' k
  end.

Fixpoint dict_set {V} (d : dict V) (k : string) (v : V) : dict V :=
  match d with
  | [] => [(k, v)]
  | (k', v') :: d' =>
      if String.eqb k' k then (k', v) :: d' else (k', v') :: dict_set d' k v
  end.

Definition keys {V} (d : dict V) : list string := map fst d.
Definition values {V} (d : dict V) : list V := map snd d.

(** [d[k]]. *)
Definition dict_getitem {V} (d : dict V) (k : string) : result V :=
  match dict_get d k with
  | Some v => Ok v
  | None => Raise (KeyError k)
  end.

(** [sorted] on a list of [str]: ascending in the order of [str]
    (character by character, by code). *)
Module StrOrder <: TotalLeBool.
Definition t := string.
Definition leb := String.leb.
Theorem leb_total : forall a b, leb a b = true \/ leb b a = true.
Proof. exact String.leb_total. Qed.
End StrOrder.

Module StrSort := Sort StrOrder.

Definition sorted (l : list string) : list string := StrSort.sort l.

(** [l.pop(i)]: the item taken out and the list that is left; a negative
    index counts from the end.  An empty list is refused first, with a
    message of its own. *)
Definition pop {A} (l : list A) (i : Z) : result (A * list A) :=
  match l with
  | [] => Raise (IndexError "pop from empty list")
  | _ :: _ =>
      let n := Z.of_nat (List.length l) in
      let j := if (i <? 0)%Z then (i + n)%Z else i in
      if ((j <? 0) || (n <=? j))%Z then
        Raise (IndexError "pop index out of range")
      else
        match nth_error l (Z.to_nat j) with
        | Some a => Ok (a, firstn (Z.to_nat j) l ++ skipn (S (Z.to_nat j)) l)
        | None => Raise (IndexError "pop index out of range")
        end
  end.

End Py.

Import Py.

Notation "x <- c1 ;; c2" := (Py.bind c1 (fun x => c2))
  (at level 61, c1 at next level, right associativity).

(** ** NumPy: floating-point values, means and the degree-one fit *)

Module Np.

Local Open Scope Q_scope.

(** A [float64]: a finite value, an infinity or NaN.  NaN is the
    missing marker of the notebooks. *)
Inductive float : Type :=
| Fin (q : Q)
| PInf
| NInf
| NaN.

Definition isnan (x : float) : bool :=
  match x with NaN => true | _ => false end.

(** The infinity of a given sign; invalid operations give NaN. *)
Definition signed_inf (c : comparison) : float :=
  match c with Gt => PInf | Lt => NInf | Eq => NaN end.

Definition fadd (x y : float) : float :=
  match x, y with
  | Fin a, Fin b => Fin (a + b)
  | NaN, _ | _, NaN => NaN
  | PInf, NInf | NInf, PInf => NaN
  | PInf, _ | _, PInf => PInf
  | NInf, _ | _, NInf => NInf
  end.

Definition fmul (x y : float) : float :=
  match x, y with
  | Fin a, Fin b => Fin (a * b)
  | NaN, _ | _, NaN => NaN
  | Fin a, PInf | PInf, Fin a => signed_inf (a ?= 0)
  | Fin a, NInf | NInf, Fin a => signed_inf (CompOpp (a ?= 0))
  | PInf, PInf | NInf, NInf => PInf
  | PInf, NInf | NInf, PInf => NInf
  end.

(** Division; a zero divisor counts as [+0.0]. *)
Definition fdiv (x y : float) : float :=
  match x, y with
  | NaN, _ | _, NaN => NaN
  | Fin a, Fin b =>
      if Qeq_bool b 0 then signed_inf (a ?= 0) else Fin (a / b)
  | Fin _, (PInf | NInf) => Fin 0
  | PInf, Fin b => if Qle_bool 0 b then PInf else NInf
  | NInf, Fin b => if Qle_bool 0 b then NInf else PInf
  | _, _ => NaN
  end.

Definition fsum (l : list float) : float := fold_right fadd (Fin 0) l.

Definition of_nat (n : nat) : Q := inject_Z (Z.of_nat n).

(** [np.mean]: the sum over the count; NaN for an empty array. *)
Definition mean (l : list float) : float :=
  fdiv (fsum l) (Fin (of_nat (List.length l))).

(** [np.nanmean], the mean xarray takes by default ([skipna]): NaN
    entries are left out of the sum and of the count. *)
Definition nanmean (l : list float) : float :=
  mean (filter (fun x => negb (isnan x)) l).

(** [x[~np.isnan(x)]]. *)
Definition drop_nan (l : list float) : list float :=
  filter (fun x => negb (isnan x)) l.

(** The finite values of an array, when all of them are finite. *)
Fixpoint finite_values (l : list float) : option (list Q) :=
  match l with
  | [] => Some []
  | Fin q :: l' => option_map (cons q) (finite_values l')
  | _ :: _ => None
  end.

Definition sumQ (l : list Q) : Q := fold_right Qplus 0 l.

Definition dotQ (x y : list Q) : Q :=
  sumQ (map (fun p => fst p * snd p) (zip x y)).


(** [n * sum x^2 - (sum x)^2]: zero exactly when all [x] are equal. *)
Definition spread (x : list Q) : Q :=
  of_nat (List.length x) * dotQ x x - sumQ x * sumQ x.

(** The slope and the intercept of the least-squares line through
    points with two distinct abscissas or more. *)
Definition slope (x y : list Q) : Q :=
  (of_nat (List.length x) * dotQ x y - sumQ x * sumQ y) / spread x.

Definition intercept (x y : list Q) : Q :=
  (sumQ y - slope x y * sumQ x) / of_nat (List.length x).

(** The least-squares line through finite points, as [np.polyfit]
    computes it with [lstsq] on the Vandermonde matrix whose columns
    are scaled to unit norm.
    - Two distinct abscissas or more: the unique minimiser.
    - All abscissas equal to [c <> 0]: the system has rank one and
      [lstsq] returns the solution of least norm in the scaled
      unknowns, [a = ybar / (2 c)], [b = ybar / 2] (a [RankWarning] is
      issued, nothing is raised).
    - All abscissas zero: the first column has norm zero, scaling
      makes it NaN and [lstsq] raises. *)
Definition lstsq_line (x y : list Q) : result (Q * Q) :=
  let n := of_nat (List.length x) in
  if Qeq_bool (spread x) 0 then
    if Qeq_bool (sumQ x) 0 then
      Raise (LinAlgError "SVD did not converge in Linear Least Squares")
    else
      let c := sumQ x / n in
      let ybar := sumQ y / n in
      Ok (ybar / (2 * c), ybar / 2)
  else
    Ok (slope x y, intercept x y).

(** The matrix of the fit has a column of norm zero: all abscissas are
    zero. *)
Definition zero_column (x : list Q) : bool :=
  Qeq_bool (spread x) 0 && Qeq_bool (sumQ x) 0.

(** [np.polyfit(x, y, 1)]: the coefficients, highest degree first.
    - A value of [x] that is not finite makes the matrix of the fit
      hold a NaN and [lstsq] raises.
    - A value of [y] that is not finite is on the right-hand side only:
      nothing is raised and both coefficients come out as NaN. *)
Definition polyfit1 (x y : list float) : result (float * float) :=
  match x with
  | [] => Raise (TypeError "expected non-empty vector for x")
  | _ :: _ =>
      if negb (Nat.eqb (List.length x) (List.length y)) then
        Raise (TypeError "expected x and y to have same length")
      else
        match finite_values x with
        | None =>
            Raise (LinAlgError "SVD did not converge in Linear Least Squares")
        | Some xs =>
            match finite_values y with
            | Some ys =>
                ab <- lstsq_line xs ys ;;
                Ok (Fin (fst ab), Fin (snd ab))
            | None =>
                if zero_column xs then
                  Raise (LinAlgError
                           "SVD did not converge in Linear Least Squares")
                else Ok (NaN, NaN)
            end
        end
  end.

Definition fneg (x : float) : float :=
  match x with
  | Fin a => Fin (- a)
  | PInf => NInf
  | NInf => PInf
  | NaN => NaN
  end.

Definition fsub (x y : float) : float := fadd x (fneg y).

End Np.

Import Np.

(** ** xarray: datasets, the global mean, coarsening and concatenation

    The operations used by the notebooks act on every data variable of a
    [Dataset] in the same way; the embedding follows one data variable,
    laid out as [time][lat][lon]. *)

Module Xr.

Local Open Scope Q_scope.

(** A time stamp of the model calendar; only [.dt.year] is read. *)
Record cftime : Type := { year : Z; month : Z }.

Definition field : Type := list (list (list float)).

(** A dataset as opened from the store.  [coords] holds the numeric
    coordinates by name; the data variable has the dimension ["time"]
    and the two spatial ones. *)
Record Dataset : Type := {
  coords : dict (list Q);
  lat_dim : string;
  lon_dim : string;
  time : list cftime;
  data : field
}.

(** [ds.dims] where [global_mean] reads it: the dimensions of the data
    variable.  The notebooks drop the bounds when a dataset is opened;
    the dimension that only the bounds have is not represented. *)
Definition dims (ds : Dataset) : list string :=
  ["time"%string; lat_dim ds; lon_dim ds].

(** The result of a reduction over the spatial dimensions. *)
Record Reduced : Type := {
  r_dims : list string;
  r_time : list cftime;
  r_data : list float
}.

(** A series along the dimension [year]. *)
Record Series (I : Type) : Type := {
  index : list I;
  svalues : list float
}.
Arguments index {I}.
Arguments svalues {I}.

(** Experiments stacked along a new dimension: [f_data] is laid out as
    [experiment_id][year]. *)
Record Frame : Type := {
  f_index : list Q;
  f_expts : list string;
  f_data : list (list float)
}.

Definition mem (s : string) (l : list string) : bool :=
  existsb (String.eqb s) l.

Definition get_lat_name (ds : Dataset) : result string :=
  match find (fun lat_name => mem lat_name (keys (coords ds)))
             ["lat"%string; "latitude"%string] with
  | Some lat_name => Ok lat_name
  | None => Raise (RuntimeError "Couldn't find a latitude coordinate")
  end.

(** [set(ds.dims) - {'time'}]. *)
Definition other_dims (ds : Dataset) : list string :=
  filter (fun d => negb (String.eqb d "time")) (nodup string_dec (dims ds)).

(** [ds * weight], the weight running along the latitude axis. *)
Definition times_weight (weight : list float) (grid : list (list float))
  : list (list float) :=
  map (fun wr => map (fun v => fmul v (fst wr)) (snd wr)) (zip weight grid).

Section GlobalMean.
(** [cosd x] is [np.cos(np.deg2rad(x))]. *)
Variable cosd : Q -> Q.

Definition cos_weight (lat : list Q) : list float :=
  map (fun x => Fin (cosd x)) lat.

(** [weight /= weight.mean()]. *)
Definition normalized (weight : list float) : list float :=
  let m := nanmean weight in map (fun w => fdiv w m) weight.

Definition global_mean (ds : Dataset) : result Reduced :=
  lat_name <- get_lat_name ds ;;
  lat <- dict_getitem (coords ds) lat_name ;;
  let weight := normalized (cos_weight lat) in
  let others := other_dims ds in
  Ok {| r_dims := filter (fun d => negb (mem d others)) (dims ds);
        r_time := time ds;
        r_data := map (fun grid =>
                         nanmean (List.concat (times_weight weight grid)))
                      (data ds) |}.
End GlobalMean.

(** Consecutive blocks of [w] elements; the last one may be shorter. *)
Fixpoint blocks_aux {A} (fuel w : nat) (l : list A) : list (list A) :=
  match fuel with
  | O => []
  | S fuel' =>
      match l with
      | [] => []
      | _ :: _ => firstn w l :: blocks_aux fuel' w (skipn w l)
      end
  end.

Definition blocks {A} (w : nat) (l : list A) : list (list A) :=
  blocks_aux (List.length l) w l.

(** The mean of a block of an integer coordinate. *)
Definition coord_mean (b : list Z) : Q :=
  sumQ (map inject_Z b) / of_nat (List.length b).

(** [.coarsen(year=w).mean()] with the default [boundary='exact']: the
    length has to be a multiple of the window; the data and the
    coordinate are averaged block by block. *)
Definition coarsen_mean (w : nat) (s : Series Z) : result (Series Q) :=
  let n := List.length (index s) in
  if negb (Nat.eqb (n mod w) 0) then
    Raise (ValueError
             ("Could not coarsen a dimension of size " ++ str_of_nat n
              ++ " with window " ++ str_of_nat w
              ++ " and boundary='exact'. Try a different 'boundary' option."))
  else
    Ok {| index := map coord_mean (blocks w (index s));
          svalues := map nanmean (blocks w (svalues s)) |}.

(** How [xr.concat] aligns the indexes of its arguments. *)
Inductive join : Type := JoinRight | JoinOuter.

Fixpoint index_eqb (a b : list Q) : bool :=
  match a, b with
  | [], [] => true
  | x :: a', y :: b' => Qeq_bool x y && index_eqb a' b'
  | _, _ => false
  end.

Definition indexes_all_equal (idxs : list (list Q)) : bool :=
  match idxs with
  | [] => true
  | i :: rest => forallb (index_eqb i) rest
  end.

Fixpoint is_unique (idx : list Q) : bool :=
  match idx with
  | [] => true
  | x :: idx' => negb (existsb (Qeq_bool x) idx') && is_unique idx'
  end.

(** Insertion into an increasing index without repetition. *)
Fixpoint insert_label (y : Q) (idx : list Q) : list Q :=
  match idx with
  | [] => [y]
  | z :: idx' =>
      match y ?= z with
      | Lt => y :: z :: idx'
      | Eq => z :: idx'
      | Gt => z :: insert_label y idx'
      end
  end.

(** The union of indexes, increasing. *)
Definition union_index (idxs : list (list Q)) : list Q :=
  fold_right insert_label [] (List.concat idxs).

Definition joined_index (j : join) (idxs : list (list Q)) : list Q :=
  match j with
  | JoinRight => last idxs []
  | JoinOuter => union_index idxs
  end.

(** The value of a series at a label; NaN where the label is absent. *)
Fixpoint at_label (idx : list Q) (vals : list float) (y : Q) : float :=
  match idx, vals with
  | i :: idx', v :: vals' =>
      if Qeq_bool i y then v else at_label idx' vals' y
  | _, _ => NaN
  end.

Definition reindex (target : list Q) (s : Series Q) : list float :=
  map (at_label (index s) (svalues s)) target.

(** [xr.concat(objs, join=j, dim=expt_da)].  Equal indexes are kept as
    they are; otherwise every argument is reindexed to the joined
    index, which needs indexes without repeated labels. *)
Definition concat (j : join) (expts : list string) (objs : list (Series Q))
  : result Frame :=
  match objs with
  | [] => Raise (ValueError "must supply at least one object to concatenate")
  | first :: _ =>
      let idxs := map index objs in
      if indexes_all_equal idxs then
        Ok {| f_index := index first; f_expts := expts;
              f_data := map svalues objs |}
      else if negb (forallb is_unique idxs) then
        Raise (ValueError
                 "cannot reindex or align along dimension 'year' because the (pandas) index has duplicate values")
      else
        let idx := joined_index j idxs in
        Ok {| f_index := idx; f_expts := expts;
              f_data := map (reindex idx) objs |}
  end.

(** [drop_all_bounds]: the coordinates whose name contains ['_bounds'] or
    ['_bnds'] are dropped ([ds.drop_vars]); nothing else changes. *)
Definition is_bounds (vname : string) : bool :=
  contains "_bounds" vname || contains "_bnds" vname.

Definition drop_all_bounds (ds : Dataset) : Dataset :=
  let drop_vars := filter is_bounds (keys (coords ds)) in
  {| coords := filter (fun kv => negb (mem (fst kv) drop_vars)) (coords ds);
     lat_dim := lat_dim ds;
     lon_dim := lon_dim ds;
     time := time ds;
     data := data ds |}.

End Xr.

Import Xr.

(** ** Ocean heat uptake notebook: key lists and the regridding batch *)

Module Ohu.

(** State of the loop of [sorted_split_list]: the two lists being
    appended to and the lines printed so far. *)
Record split_state : Type := {
  c_list : list string;
  e_list : list string;
  split_out : list string
}.

Definition split_step (st : split_state) (item : string) : split_state :=
  if contains "piControl" item then
    {| c_list := c_list st ++ [item]; e_list := e_list st;
       split_out := split_out st |}
  else if contains "1pctCO2" item then
    {| c_list := c_list st; e_list := e_list st ++ [item];
       split_out := split_out st |}
  else
    {| c_list := c_list st; e_list := e_list st;
       split_out := split_out st
                      ++ [("Could not find experiment name in key:" ++ item)%string] |}.

(** [sorted_split_list(a_list)]: the pair returned, and the printed
    lines. *)
Definition sorted_split_list (a_list : list string)
  : (list string * list string) * list string :=
  let st := fold_left split_step a_list
              {| c_list := []; e_list := []; split_out := [] |} in
  ((sorted (c_list st), sorted (e_list st)), split_out st).

(** The batch loop.  [body ctrl_key expr_key] stands for the two
    statements under [try]: [get_tcr] followed by [regrid(...).hfds];
    it yields the regridded field or the text [str(e)] of the
    [Exception] raised. *)
Section Batch.
Variable V : Type.
Variable body : string -> string -> string + V.

Record batch_state : Type := {
  ds_regrid_dict : dict V;
  success_count : nat;
  model_count : nat;
  batch_out : list string
}.

Definition batch_init : batch_state :=
  {| ds_regrid_dict := []; success_count := 0; model_count := 0;
     batch_out := [] |}.

(** One iteration.  [ctrl_key.split('.')[2]] is evaluated before
    [try]: its [IndexError] leaves the loop. *)
Definition batch_step (st : batch_state) (kk : string * string)
  : result batch_state :=
  let '(ctrl_key, expr_key) := kk in
  model <- getitem (split "." ctrl_key) 2 ;;
  match body ctrl_key expr_key with
  | inl e =>
      Ok {| ds_regrid_dict := ds_regrid_dict st;
            success_count := success_count st;
            model_count := S (model_count st);
            batch_out := batch_out st
                           ++ [("Failed to regrid " ++ model ++ ": " ++ e)%string] |}
  | inr ds =>
      Ok {| ds_regrid_dict := dict_set (ds_regrid_dict st) model ds;
            success_count := S (success_count st);
            model_count := S (model_count st);
            batch_out := batch_out st
                           ++ [(model ++ " regridded and added to dictionary")%string] |}
  end.

Fixpoint batch_loop (st : batch_state) (kks : list (string * string))
  : result batch_state :=
  match kks with
  | [] => Ok st
  | kk :: kks' => st' <- batch_step st kk ;; batch_loop st' kks'
  end.

(** The line printed after the loop. *)
Definition summary (succ total : nat) : string :=
  (repeat_char "-" 40 ++ String "010" "| " ++ str_of_nat succ ++ "/"
     ++ str_of_nat total ++ " models successfully regridded! |"
     ++ String "010" (repeat_char "-" 40))%string.

Definition regrid_batch (ctrl_keys expr_keys : list string)
  : result batch_state :=
  st <- batch_loop batch_init (zip ctrl_keys expr_keys) ;;
  Ok {| ds_regrid_dict := ds_regrid_dict st;
        success_count := success_count st;
        model_count := model_count st;
        batch_out := batch_out st
                       ++ [summary (success_count st) (model_count st)] |}.
End Batch.

Arguments ds_regrid_dict {V}.
Arguments success_count {V}.
Arguments model_count {V}.
Arguments batch_out {V}.
Arguments batch_init {V}.
Arguments batch_step {V}.
Arguments batch_loop {V}.
Arguments regrid_batch {V}.

(** The models taken out by hand before the batch: [pop(-3)] on both
    lists, then [pop(1)] on both lists. *)
Definition pop_models (ctrl_keys expr_keys : list string)
  : result (list string * list string) :=
  c1 <- pop ctrl_keys (-3) ;;
  e1 <- pop expr_keys (-3) ;;
  c2 <- pop (snd c1) 1 ;;
  e2 <- pop (snd e1) 1 ;;
  Ok (snd c2, snd e2).

(** The variable [hfds] of one dataset of [dset_dict], laid out as
    [cell][time]: a monthly series for every cell of the grid. *)
Definition hfds : Type := list (list float).

(** [.isel(time=slice(start, stop))]: the positions from [start] to
    [stop - 1], as far as the series goes. *)
Definition isel_slice {A} (start stop : nat) (l : list A) : list A :=
  firstn (stop - start) (skipn start l).

(** [.isel(time=slice(12*59, 12*80)).mean(dim='time')] for one cell. *)
Definition tcr_mean (series : list float) : float :=
  nanmean (isel_slice (12 * 59) (12 * 80) series).

(** The size of the dimension [time]: every cell has a series of this
    length; it is read off the first cell. *)
Definition time_size (ds : hfds) : nat :=
  match ds with
  | [] => O
  | series :: _ => List.length series
  end.

(** The beginning of the sentence of the [ValueError] that [.isel]
    raises for a dimension that the dataset does not have; the sentence
    goes on with the dimensions that it has. *)
Definition no_time : string :=
  "Dimensions {'time'} do not exist. Expected one or more of ".

(** [ds.squeeze().isel(time=slice(12*59, 12*80)).mean(dim='time')]:
    [squeeze] takes away a dimension [time] of size one, and [isel] then
    does not find it. *)
Definition window_mean (ds : hfds) : result (list float) :=
  if Nat.eqb (time_size ds) 1 then Raise (ValueError no_time)
  else Ok (map tcr_mean ds).

(** [get_tcr]: the two datasets are looked up and squeezed first, then
    the window mean of the experiment is taken, then that of the
    control run. *)
Definition get_tcr (dset_dict : dict hfds) (ctrl_key expr_key : string)
  : result (list float) :=
  ds_1pct <- dict_getitem dset_dict expr_key ;;
  ds_piCl <- dict_getitem dset_dict ctrl_key ;;
  m_1pct <- window_mean ds_1pct ;;
  m_piCl <- window_mean ds_piCl ;;
  Ok (map (fun ec => fsub (fst ec) (snd ec)) (zip m_1pct m_piCl)).

(** A field on a latitude-longitude grid, laid out as [lat][lon], with
    the coordinate of the dimension [lon]. *)
Record lon_field : Type := {
  lon : list Q;
  cells : list (list float)
}.

(** What goes wrong when [add_cyclic_point] works out the period:
    [.item()] on a difference that is not there ([ValueError]), and the
    division by a spacing of zero ([ZeroDivisionError]). *)
Inductive period_error : Type :=
| NoSpacing
| ZeroSpacing.

(** [xarray_obj.sizes[dim] / xarray_obj.coords[dim][:2].diff(dim).item()]. *)
Definition default_period (coord : list Q) : period_error + Q :=
  match coord with
  | a :: b :: _ =>
      if Qeq_bool (b - a) 0 then inl ZeroSpacing
      else inr (of_nat (List.length coord) / (b - a))%Q
  | _ => inl NoSpacing
  end.

(** [add_cyclic_point(xarray_obj, 'lon', period)]: the first point along
    [lon] is appended, its coordinate moved by the period. *)
Definition add_cyclic_point (xarray_obj : lon_field) (period : option Q)
  : period_error + lon_field :=
  match
    match period with
    | Some p => inr p
    | None => default_period (lon xarray_obj)
    end
  with
  | inl e => inl e
  | inr p =>
      inr {| lon := lon xarray_obj
                      ++ map (fun x => (x + p)%Q) (firstn 1 (lon xarray_obj));
             cells := map (fun row => row ++ firstn 1 row)
                          (cells xarray_obj) |}
  end.

End Ohu.

(** ** The alignment loop shared by the two notebooks

    The two cells differ in the value assigned to [ds.coords['year']],
    in the list [expts] and in the [join] given to [xr.concat]. *)

Module Align.

Section Loop.
Variable cosd : Q -> Q.
Variable year_coord : Dataset -> result (list Z).
Variable expts : list string.
Variable how : join.

Definition is_none {A} (o : option A) : bool :=
  match o with None => true | Some _ => false end.

(** [any([d is None for d in expt_dsets])]. *)
Definition any_none (v : dict (option Dataset)) : bool :=
  existsb is_none (values v).

(** [ds.coords['year'] = ...] for one entry of [v]. *)
Definition add_year (kd : string * option Dataset)
  : result (string * (Dataset * list Z)) :=
  match snd kd with
  | Some ds => y <- year_coord ds ;; Ok (fst kd, (ds, y))
  | None =>
      Raise (AttributeError "'NoneType' object has no attribute 'coords'")
  end.

(** [.pipe(global_mean).swap_dims({'time': 'year'}).drop_vars('time')
    .coarsen(year=12).mean()]. *)
Definition annual_mean (dy : Dataset * list Z) : result (Series Q) :=
  r <- global_mean cosd (fst dy) ;;
  coarsen_mean 12 {| index := snd dy; svalues := r_data r |}.

(** The body of the loop for the model [k]: the frame stored under
    [k], or nothing after [continue], and the line printed. *)
Definition align_model (k : string) (v : dict (option Dataset))
  : result (option Frame * list string) :=
  if any_none v then
    Ok (None, [("Missing experiment for " ++ k)%string])
  else
    v' <- mapM add_year v ;;
    dsets_ann_mean <-
      mapM (fun expt => dy <- dict_getitem v' expt ;; annual_mean dy)
           expts ;;
    fr <- concat how expts dsets_ann_mean ;;
    Ok (Some fr, []).

Record loop_state : Type := {
  dsets_aligned : dict Frame;
  printed : list string
}.

Fixpoint align_loop (st : loop_state)
         (items : list (string * dict (option Dataset)))
  : result loop_state :=
  match items with
  | [] => Ok st
  | (k, v) :: items' =>
      r <- align_model k v ;;
      align_loop
        {| dsets_aligned :=
             match fst r with
             | Some fr => dict_set (dsets_aligned st) k fr
             | None => dsets_aligned st
             end;
           printed := printed st ++ snd r |}
        items'
  end.

Definition align_all (dsets_ : dict (dict (option Dataset)))
  : result loop_state :=
  align_loop {| dsets_aligned := []; printed := [] |} dsets_.
End Loop.

End Align.

(** ** Equilibrium climate sensitivity notebook *)

Module Ecs.

Local Open Scope Q_scope.

Definition co2_option : string := "abrupt-2xCO2".

Definition expts : list string := ["piControl"%string; co2_option].

(** The list [dsets] of [open_dsets]: every store of [df.zstore] is
    opened and its bounds are dropped, in order; [df] holds the outcome
    of [xr.open_zarr] for each store.  The list is built before [try]:
    an exception of an open leaves [open_dsets]. *)
Definition open_stores (df : list (result Dataset)) : result (list Dataset) :=
  mapM (fun opened => ds <- opened ;; Ok (drop_all_bounds ds)) df.

(** [open_dsets]: [merge dsets] is the outcome of
    [xr.merge(dsets, join='exact')], of which only a [ValueError] is
    caught. *)
Definition open_dsets (merge : list Dataset -> result Dataset)
           (df : list (result Dataset)) : result (option Dataset) :=
  dsets <- open_stores df ;;
  match merge dsets with
  | Ok ds => Ok (Some ds)
  | Raise (ValueError _) => Ok None
  | Raise e => Raise e
  end.

(** [dsets_ = dask.compute(dict(dsets))[0]]: every delayed
    [open_dsets] is run; [dsets] holds the stores of each model and
    experiment. *)
Definition open_all (merge : list Dataset -> result Dataset)
           (dsets : dict (dict (list (result Dataset))))
  : result (dict (dict (option Dataset))) :=
  mapM (fun kv =>
          v <- mapM (fun ed => d <- open_dsets merge (snd ed) ;; Ok (fst ed, d))
                    (snd kv) ;;
          Ok (fst kv, v))
       dsets.

(** [ds.time.dt.year - ds.time.dt.year[0]]. *)
Definition year_coord (ds : Dataset) : result (list Z) :=
  let years := map year (time ds) in
  match years with
  | [] => Raise (IndexError "index 0 is out of bounds for axis 0 with size 0")
  | y0 :: _ => Ok (map (fun y => (y - y0)%Z) years)
  end.

Definition align_all (cosd : Q -> Q) (dsets_ : dict (dict (option Dataset)))
  : result Align.loop_state :=
  Align.align_all cosd year_coord expts JoinRight dsets_.

(** One model of [ds_anom] for the experiment [co2_option]: a row per
    label of the dimension [year]. *)
Record anom : Type := { yr : Q; tas : float; imbalance : float }.

(** [.sel(year=slice(lo, hi))] on an increasing index: both bounds are
    included. *)
Definition sel_year (lo hi : Q) (rows : list anom) : list anom :=
  filter (fun r => Qle_bool lo (yr r) && Qle_bool (yr r) hi) rows.

Definition first_150_years : Q * Q := (0, 149).

Definition calc_ecs (tas imb : list float) : result float :=
  ab <- polyfit1 tas imb ;;
  Ok (fmul (Fin (-1)) (fdiv (snd ab) (fst ab))).

(** [ds_abrupt['ecs']] for one model. *)
Definition ds_abrupt_ecs (rows : list anom) (window : Q * Q) : result float :=
  let ds_abrupt := sel_year (fst window) (snd window) rows in
  calc_ecs (map tas ds_abrupt) (map imbalance ds_abrupt).

(** [calc_and_plot_ecs]: the value written on the panel. *)
Definition calc_and_plot_ecs (x y : list float) : result float :=
  let x := drop_nan x in
  let y := drop_nan y in
  ab <- polyfit1 x y ;;
  Ok (fdiv (fmul (Fin (-1)) (snd ab)) (fst ab)).

(** [big_ds]: the frames of the models stacked along [source_id],
    [b_data] laid out as [source_id][experiment_id][year].  [xr.concat]
    joins the indexes on the outside when no [join] is given. *)
Record big : Type := {
  b_index : list Q;
  b_source_ids : list string;
  b_data : list (list (list float))
}.

Definition reindex_frame (target : list Q) (fr : Frame) : list (list float) :=
  map (fun row => map (at_label (f_index fr) row) target) (f_data fr).

Definition concat_models (dsets_aligned_ : dict Frame) : result big :=
  match dsets_aligned_ with
  | [] => Raise (ValueError "must supply at least one object to concatenate")
  | (_, first) :: _ =>
      let idxs := map f_index (values dsets_aligned_) in
      if indexes_all_equal idxs then
        Ok {| b_index := f_index first;
              b_source_ids := keys dsets_aligned_;
              b_data := map f_data (values dsets_aligned_) |}
      else if negb (forallb is_unique idxs) then
        Raise (ValueError
                 "cannot reindex or align along dimension 'year' because the (pandas) index has duplicate values")
      else
        let idx := union_index idxs in
        Ok {| b_index := idx;
              b_source_ids := keys dsets_aligned_;
              b_data := map (reindex_frame idx) (values dsets_aligned_) |}
  end.

(** [big_ds['rsdt'] - big_ds['rsut'] - big_ds['rlut']], value by value. *)
Definition net_imbalance (rsdt rsut rlut : list float) : list float :=
  map (fun t => fsub (fsub (fst (fst t)) (snd (fst t))) (snd t))
      (zip (zip rsdt rsut) rlut).

Fixpoint position (k : string) (l : list string) : option nat :=
  match l with
  | [] => None
  | k' :: l' =>
      if String.eqb k' k then Some O else option_map S (position k l')
  end.

(** The sentence of the [KeyError] that [.sel] raises for a label that
    the index [experiment_id] does not have. *)
Definition not_in_index : string :=
  "not all values found in index 'experiment_id'. Try setting the `method` keyword argument (example: method='nearest').".

(** [.sel(experiment_id=expt)]: the row of an experiment of a frame. *)
Definition sel_experiment (fr : Frame) (expt : string) : result (list float) :=
  match position expt (f_expts fr) with
  | Some i =>
      match nth_error (f_data fr) i with
      | Some row => Ok row
      | None => Raise (KeyError not_in_index)
      end
  | None => Raise (KeyError not_in_index)
  end.

(** [ds_mean] and [ds_anom] for one model and one variable: the mean of
    the control run over the years is taken off every value. *)
Definition ds_anom (fr : Frame) : result Frame :=
  control <- sel_experiment fr "piControl" ;;
  let ds_mean := nanmean control in
  Ok {| f_index := f_index fr;
        f_expts := f_expts fr;
        f_data := map (map (fun v => fsub v ds_mean)) (f_data fr) |}.

End Ecs.

(** ** Global mean surface temperature notebook *)

Module Gmst.

Definition expts : list string :=
  ["historical"%string; "ssp245"%string; "ssp585"%string].

(** [ds.time.dt.year]. *)
Definition year_coord (ds : Dataset) : result (list Z) :=
  Ok (map year (time ds)).

Definition align_all (cosd : Q -> Q) (dsets_ : dict (dict (option Dataset)))
  : result Align.loop_state :=
  Align.align_all cosd year_coord expts JoinOuter dsets_.

End Gmst.

(** ** The sensitivity estimator as the specification words it

    Written from the text of the specification, to be compared with
    [Ecs.calc_ecs] and [Ecs.calc_and_plot_ecs].  A value is a rational or
    the missing marker [None]. *)

Module Stated.

Local Open Scope Q_scope.


Definition to_float (v : option Q) : float :=
  match v with Some q => Fin q | None => NaN end.




End Stated.

(** * Properties *)

(** ** Substrings and [sorted] *)

Lemma prefix_app (n h : string) :
  String.prefix n h = true <-> exists post, h = (n ++ post)%string.
Proof.
  revert h; induction n as [|a n IH]; intros h; simpl.
  - split; [intros _; exists h; reflexivity | intros _; now destruct h].
  - destruct h as [|b h]; simpl.
    + split; [discriminate | intros [post H]; discriminate].
    + destruct (ascii_dec a b) as [->|Hab].
      * rewrite IH. split; intros [post H]; exists post.
        -- now rewrite H.
        -- now injection H.
      * split; [discriminate | intros [post H]; injection H; congruence].
Qed.

Lemma contains_spec (n h : string) :
  contains n h = true <-> exists pre post, h = (pre ++ n ++ post)%string.
Proof.
  induction h as [|c h IH]; cbn [contains].
  - rewrite prefix_app. split.
    + intros [post H]. exists EmptyString, post. exact H.
    + intros [pre [post H]]. destruct pre; simpl in H; [|discriminate].
      exists post. exact H.
  - rewrite orb_true_iff, IH, (prefix_app n (String c h)). split.
    + intros [[post H] | [pre [post H]]].
      * exists EmptyString, post. exact H.
      * exists (String c pre), post. simpl. now rewrite H.
    + intros [pre [post H]]. destruct pre as [|c' pre]; simpl in H.
      * left. exists post. exact H.
      * right. injection H as _ H. exists pre, post. exact H.
Qed.

Definition str_le (a b : string) : Prop := String.leb a b = true.

Lemma sorted_Sorted (l : list string) : Sorted str_le (sorted l).
Proof.
  unfold sorted, str_le.
  exact (StrSort.Sorted_sort l).
Qed.

Lemma sorted_Permutation (l : list string) : Permutation (sorted l) l.
Proof. apply Permutation_sym, StrSort.Permuted_sort. Qed.

Lemma sorted_In (l : list string) (x : string) : In x (sorted l) <-> In x l.
Proof.
  split; apply Permutation_in;
    [apply sorted_Permutation | apply Permutation_sym, sorted_Permutation].
Qed.

(** ** [sorted_split_list] *)

Definition is_ctrl (item : string) : bool := contains "piControl" item.

Definition is_expr (item : string) : bool :=
  negb (contains "piControl" item) && contains "1pctCO2" item.

Definition is_other (item : string) : bool :=
  negb (contains "piControl" item) && negb (contains "1pctCO2" item).

Lemma split_loop (l : list string) (st : Ohu.split_state) :
  let st' := fold_left Ohu.split_step l st in
  Ohu.c_list st' = Ohu.c_list st ++ filter is_ctrl l /\
  Ohu.e_list st' = Ohu.e_list st ++ filter is_expr l /\
  Ohu.split_out st' =
    Ohu.split_out st
      ++ map (String.append "Could not find experiment name in key:")
             (filter is_other l).
Proof.
  revert st; induction l as [|item l IH]; intros st; simpl.
  - now rewrite !app_nil_r.
  - destruct (IH (Ohu.split_step st item)) as (Hc & He & Ho).
    rewrite Hc, He, Ho. clear IH Hc He Ho.
    unfold Ohu.split_step, is_ctrl, is_expr, is_other.
    destruct (contains "piControl" item); simpl.
    + repeat split; now rewrite <- ?app_assoc.
    + destruct (contains "1pctCO2" item); simpl;
        repeat split; now rewrite <- ?app_assoc.
Qed.

Lemma sorted_split_list_eq (a_list : list string) :
  Ohu.sorted_split_list a_list =
    ((sorted (filter is_ctrl a_list), sorted (filter is_expr a_list)),
     map (String.append "Could not find experiment name in key:")
         (filter is_other a_list)).
Proof.
  unfold Ohu.sorted_split_list.
  destruct (split_loop a_list
              {| Ohu.c_list := []; Ohu.e_list := []; Ohu.split_out := [] |})
    as (Hc & He & Ho).
  simpl in Hc, He, Ho. now rewrite Hc, He, Ho.
Qed.

(** A key of the catalog has one field for the experiment: it does not
    hold the names of both experiments. *)
Definition one_experiment (k : string) : Prop :=
  ~ (contains "piControl" k = true /\ contains "1pctCO2" k = true).

Lemma filter_expr_catalog (a_list : list string) :
  (forall k, In k a_list -> one_experiment k) ->
  filter is_expr a_list = filter (contains "1pctCO2") a_list.
Proof.
  intros H. apply filter_ext_in. intros k Hk. unfold is_expr.
  destruct (contains "piControl" k) eqn:Hc; [|reflexivity].
  destruct (contains "1pctCO2" k) eqn:He; [|reflexivity].
  exfalso. apply (H k Hk). now split.
Qed.

(** C10.  For a list of keys of the catalog the two lists returned by
    [sorted_split_list] are sorted; the first holds, as often as they
    occur, the keys that contain ['piControl'], the second the keys that
    contain ['1pctCO2']; a key with neither substring is in neither list
    and no key is in both. *)
Theorem sorted_split_list_partition (a_list : list string) :
  (forall k, In k a_list -> one_experiment k) ->
  let c_list := fst (fst (Ohu.sorted_split_list a_list)) in
  let e_list := snd (fst (Ohu.sorted_split_list a_list)) in
  Sorted str_le c_list /\ Sorted str_le e_list /\
  Permutation c_list (filter (contains "piControl") a_list) /\
  Permutation e_list (filter (contains "1pctCO2") a_list) /\
  (forall k, contains "piControl" k = false -> contains "1pctCO2" k = false ->
             ~ In k c_list /\ ~ In k e_list) /\
  (forall k, ~ (In k c_list /\ In k e_list)).
Proof.
  intros Hcat. rewrite sorted_split_list_eq; cbn [fst snd].
  split; [apply sorted_Sorted|].
  split; [apply sorted_Sorted|].
  split; [apply sorted_Permutation|].
  split; [rewrite <- (filter_expr_catalog a_list Hcat);
          apply sorted_Permutation|].
  split.
  - intros k Hc He.
    rewrite !sorted_In, !filter_In. unfold is_ctrl, is_expr.
    rewrite Hc, He. split; intros [_ Hk]; discriminate.
  - intros k. rewrite !sorted_In, !filter_In. unfold is_ctrl, is_expr.
    intros [[_ Hc] [_ He]]. rewrite Hc in He. discriminate.
Qed.

Definition catalog_demo : list string :=
  ["CMIP.NCAR.CESM2.piControl.Omon.gn"; "CMIP.CCCma.CanESM5.1pctCO2.Omon.gn";
   "CMIP.NCAR.CESM2.historical.Omon.gn"; "CMIP.NCAR.CESM2.1pctCO2.Omon.gn";
   "CMIP.CCCma.CanESM5.piControl.Omon.gn"]%string.

Lemma sorted_split_list_partition_demo :
  (forall k, In k catalog_demo -> one_experiment k) /\
  Ohu.sorted_split_list catalog_demo
    = ((["CMIP.CCCma.CanESM5.piControl.Omon.gn";
         "CMIP.NCAR.CESM2.piControl.Omon.gn"],
        ["CMIP.CCCma.CanESM5.1pctCO2.Omon.gn";
         "CMIP.NCAR.CESM2.1pctCO2.Omon.gn"]),
       ["Could not find experiment name in key:CMIP.NCAR.CESM2.historical.Omon.gn"])%string /\
  Permutation (snd (fst (Ohu.sorted_split_list catalog_demo)))
              (filter (contains "1pctCO2") catalog_demo).
Proof.
  assert (Hcat : forall k, In k catalog_demo -> one_experiment k).
  { intros k [<-|[<-|[<-|[<-|[<-|[]]]]]] [H1 H2]; vm_compute in H1, H2;
      discriminate. }
  split; [exact Hcat|]. split; [reflexivity|].
  exact (proj1 (proj2 (proj2 (proj2
           (sorted_split_list_partition catalog_demo Hcat))))).
Defined.

(** A string that holds both names, which is not a key of the catalog,
    goes to the first list only. *)
Example sorted_split_list_both_names :
  let a_list := ["x.piControl.1pctCO2"%string] in
  ~ one_experiment "x.piControl.1pctCO2" /\
  Ohu.sorted_split_list a_list = ((a_list, []), []).
Proof.
  split; [|reflexivity].
  intros H. apply H. split; reflexivity.
Qed.

(** ** The latitude coordinate *)

Lemma mem_In (s : string) (l : list string) : mem s l = true <-> In s l.
Proof.
  unfold mem. rewrite existsb_exists. split.
  - intros [x [Hx Heq]]. apply String.eqb_eq in Heq. now subst.
  - intros H. exists s. split; [assumption | apply String.eqb_refl].
Qed.

Lemma mem_false (s : string) (l : list string) : mem s l = false <-> ~ In s l.
Proof.
  rewrite <- mem_In. destruct (mem s l); split; congruence.
Qed.

Lemma dict_get_keys {V} (d : dict V) (k : string) :
  In k (keys d) -> exists v, dict_get d k = Some v.
Proof.
  induction d as [|[k' v'] d IH]; simpl; [tauto|].
  intros H. destruct (String.eqb k' k) eqn:E.
  - now exists v'.
  - destruct H as [H|H]; [|now apply IH].
    subst. rewrite String.eqb_refl in E. discriminate.
Qed.


Lemma get_lat_name_cases (ds : Dataset) :
  let names := keys (coords ds) in
  (In "lat"%string names /\ get_lat_name ds = Ok "lat"%string) \/
  (~ In "lat"%string names /\ In "latitude"%string names /\
   get_lat_name ds = Ok "latitude"%string) \/
  (~ In "lat"%string names /\ ~ In "latitude"%string names /\
   get_lat_name ds = Raise (RuntimeError "Couldn't find a latitude coordinate")).
Proof.
  unfold get_lat_name; simpl.
  destruct (mem "lat" (keys (coords ds))) eqn:E1.
  - left. now apply mem_In in E1.
  - apply mem_false in E1. right.
    destruct (mem "latitude" (keys (coords ds))) eqn:E2.
    + left. now apply mem_In in E2.
    + right. now apply mem_false in E2.
Qed.

(** C4.  The spatial reduction raises the error of the missing latitude
    coordinate exactly when neither ['lat'] nor ['latitude'] is among the
    coordinates of the dataset; with one of them present it returns. *)
Theorem global_mean_missing_coordinate (cosd : Q -> Q) (ds : Dataset) :
  let names := keys (coords ds) in
  ((exists e, global_mean cosd ds = Raise e) <->
   ~ In "lat"%string names /\ ~ In "latitude"%string names) /\
  (~ In "lat"%string names /\ ~ In "latitude"%string names ->
   global_mean cosd ds =
     Raise (RuntimeError "Couldn't find a latitude coordinate")) /\
  (In "lat"%string names \/ In "latitude"%string names ->
   exists r, global_mean cosd ds = Ok r).
Proof.
  intros names.
  assert (Hpresent : forall n, In n names -> get_lat_name ds = Ok n ->
                               exists r, global_mean cosd ds = Ok r).
  { intros n Hin Hn. unfold global_mean. rewrite Hn. simpl.
    destruct (dict_get_keys (coords ds) n Hin) as [lat Hlat].
    unfold dict_getitem. rewrite Hlat. simpl. eauto. }
  assert (Habsent : get_lat_name ds =
                      Raise (RuntimeError "Couldn't find a latitude coordinate") ->
                    global_mean cosd ds =
                      Raise (RuntimeError "Couldn't find a latitude coordinate")).
  { intros Hn. unfold global_mean. now rewrite Hn. }
  destruct (get_lat_name_cases ds) as [[H1 Hn] | [[H1 [H2 Hn]] | [H1 [H2 Hn]]]];
    fold names in H1; try fold names in H2.
  - destruct (Hpresent _ H1 Hn) as [r Hr].
    split; [|split].
    + split; [intros [e He]; congruence | tauto].
    + tauto.
    + intros _. eauto.
  - destruct (Hpresent _ H2 Hn) as [r Hr].
    split; [|split].
    + split; [intros [e He]; congruence | tauto].
    + tauto.
    + intros _. eauto.
  - specialize (Habsent Hn).
    split; [|split].
    + split; [tauto | intros _; eauto].
    + intros _. exact Habsent.
    + tauto.
Qed.

(** ** The year coordinate *)

(** C5, as amended.  In the sensitivity notebook the year coordinate of a
    series that is not empty is [year(t) - year(t0)], sample by sample, and
    so starts at 0; in the surface-temperature notebook it is the calendar
    year [year(t)] itself. *)
Theorem year_coord_rebase (ds : Dataset) :
  (forall t0 rest, time ds = t0 :: rest ->
     Ecs.year_coord ds = Ok (map (fun t => (year t - year t0)%Z) (time ds)) /\
     exists ys, Ecs.year_coord ds = Ok (0%Z :: ys)) /\
  Gmst.year_coord ds = Ok (map year (time ds)).
Proof.
  split; [|reflexivity].
  intros t0 rest Ht. unfold Ecs.year_coord. rewrite Ht. simpl.
  rewrite map_map, Z.sub_diag. split; [reflexivity | eauto].
Qed.

Definition jan (y : Z) : cftime := {| year := y; month := 1 |}.

Definition ds_1850 : Dataset :=
  {| coords := [("lat"%string, [0%Q])];
     lat_dim := "lat"; lon_dim := "lon";
     time := [jan 1850; jan 1851];
     data := [[[Fin 1]]; [[Fin 2]]] |}.

(** C5, as stated, fails in the surface-temperature notebook: the year
    coordinate of a series that starts in 1850 starts at 1850, not at 0. *)
Lemma gmst_year_coord_not_rebased :
  Gmst.year_coord ds_1850 = Ok [1850%Z; 1851%Z] /\
  Ecs.year_coord ds_1850 = Ok [0%Z; 1%Z] /\
  ~ (exists ys, Gmst.year_coord ds_1850 = Ok (0%Z :: ys)).
Proof.
  split; [reflexivity|]. split; [reflexivity|].
  intros [ys H]. discriminate H.
Qed.

(** ** Coarsening to annual means *)

Lemma blocks_aux_exact {A} (w k fuel : nat) (l : list A) :
  (0 < w)%nat -> List.length l = (k * w)%nat -> (k <= fuel)%nat ->
  List.length (blocks_aux fuel w l) = k /\
  forall i, (i < k)%nat ->
            nth i (blocks_aux fuel w l) [] = firstn w (skipn (i * w) l).
Proof.
  intros Hw. revert fuel l.
  induction k as [|k IH]; intros fuel l Hl Hf.
  - simpl in Hl. apply length_zero_iff_nil in Hl. subst l.
    split; [now destruct fuel | lia].
  - destruct fuel as [|fuel]; [lia|].
    destruct l as [|a l]; [simpl in Hl; lia|].
    cbn [blocks_aux].
    destruct (IH fuel (skipn w (a :: l))) as [Hlen Hnth].
    + rewrite length_skipn, Hl. simpl. lia.
    + lia.
    + split; [simpl; now rewrite Hlen|].
      intros [|i] Hi.
      * reflexivity.
      * cbn [nth]. rewrite Hnth by lia.
        rewrite skipn_skipn.
        replace (S i * w)%nat with (i * w + w)%nat by (simpl; lia).
        reflexivity.
Qed.

Lemma blocks_exact {A} (w k : nat) (l : list A) :
  (0 < w)%nat -> List.length l = (k * w)%nat ->
  List.length (blocks w l) = k /\
  forall i, (i < k)%nat -> nth i (blocks w l) [] = firstn w (skipn (i * w) l).
Proof.
  intros Hw Hl. apply blocks_aux_exact; [assumption | assumption |].
  rewrite Hl. nia.
Qed.

Lemma fsum_finite (l : list Q) :
  exists q, fsum (map Fin l) = Fin q /\ q == sumQ l.
Proof.
  induction l as [|a l [q [Hq Heq]]]; simpl.
  - exists 0. split; reflexivity.
  - rewrite Hq. simpl. exists (a + q). split; [reflexivity|].
    now rewrite Heq.
Qed.

Lemma drop_nan_finite (l : list Q) :
  filter (fun x => negb (isnan x)) (map Fin l) = map Fin l.
Proof.
  induction l as [|a l IH]; simpl; [reflexivity | now rewrite IH].
Qed.

Lemma of_nat_pos (n : nat) : (0 < n)%nat -> 0 < of_nat n.
Proof.
  intros H. unfold of_nat, Qlt. simpl. lia.
Qed.

Lemma of_nat_S (n : nat) : of_nat (S n) == of_nat n + 1.
Proof.
  unfold of_nat. rewrite Nat2Z.inj_succ, <- Z.add_1_r, inject_Z_plus.
  reflexivity.
Qed.

(** The mean of finite values that are not all missing is the plain
    arithmetic mean. *)
Lemma nanmean_finite (l : list Q) :
  l <> [] ->
  exists q, nanmean (map Fin l) = Fin q /\
            q == sumQ l / of_nat (List.length l).
Proof.
  intros Hl. unfold nanmean, mean. rewrite drop_nan_finite.
  destruct (fsum_finite l) as [s [Hs Heq]]. rewrite Hs, length_map.
  simpl.
  assert (Hpos : 0 < of_nat (List.length l)).
  { apply of_nat_pos. destruct l; [congruence | simpl; lia]. }
  destruct (Qeq_bool (of_nat (List.length l)) 0) eqn:E.
  - apply Qeq_bool_eq in E. rewrite E in Hpos. now apply Qlt_irrefl in Hpos.
  - exists (s / of_nat (List.length l)). split; [reflexivity|].
    now rewrite Heq.
Qed.

(** C6, as amended.  The annual resampling is [coarsen] with the default
    boundary ['exact'].  On a series whose length is [k] times 12 it
    returns [k] points, the [i]-th being the mean of the [i]-th block of
    12 months (the plain arithmetic mean where the block is finite); a
    24-month series gives 2 points.  On a series whose length is not a
    multiple of 12 it raises [ValueError]. *)
Theorem coarsen_mean_annual (s : Series Z) :
  List.length (svalues s) = List.length (index s) ->
  (forall k, List.length (index s) = (k * 12)%nat ->
     exists r, coarsen_mean 12 s = Ok r /\
       List.length (svalues r) = k /\ List.length (index r) = k /\
       (forall i, (i < k)%nat ->
          nth i (svalues r) NaN
            = nanmean (firstn 12 (skipn (i * 12) (svalues s)))) /\
       (forall i b, (i < k)%nat ->
          firstn 12 (skipn (i * 12) (svalues s)) = map Fin b ->
          exists q, nth i (svalues r) NaN = Fin q /\ q == sumQ b / 12)) /\
  (List.length (index s) = 24%nat ->
     exists r, coarsen_mean 12 s = Ok r /\ List.length (svalues r) = 2%nat) /\
  ((List.length (index s) mod 12 <> 0)%nat ->
     exists msg, coarsen_mean 12 s = Raise (ValueError msg)).
Proof.
  intros Hlen.
  assert (Hexact : forall k, List.length (index s) = (k * 12)%nat ->
     exists r, coarsen_mean 12 s = Ok r /\
       List.length (svalues r) = k /\ List.length (index r) = k /\
       (forall i, (i < k)%nat ->
          nth i (svalues r) NaN
            = nanmean (firstn 12 (skipn (i * 12) (svalues s))))).
  { intros k Hk. unfold coarsen_mean.
    replace (List.length (index s) mod 12)%nat with 0%nat
      by (rewrite Hk; symmetry; apply Nat.Div0.mod_mul).
    cbn [Nat.eqb negb].
    destruct (blocks_exact 12 k (svalues s)) as [Hbl Hbn]; [lia | lia |].
    destruct (blocks_exact 12 k (index s)) as [Hil _]; [lia | lia |].
    eexists. split; [reflexivity|]. cbn [svalues index].
    rewrite !length_map. repeat split; try assumption.
    intros i Hi.
    rewrite <- (Hbn i Hi).
    replace NaN with (nanmean []) at 1 by reflexivity.
    apply map_nth. }
  split; [|split].
  - intros k Hk. destruct (Hexact k Hk) as [r (Hr & Hv & Hi & Hn)].
    exists r. repeat split; try assumption.
    intros i b Hik Hb. rewrite (Hn i Hik), Hb.
    assert (Hbl : List.length b = 12%nat).
    { rewrite <- (length_map Fin b), <- Hb.
      rewrite length_firstn, length_skipn, Hlen, Hk. nia. }
    destruct (nanmean_finite b) as [q [Hq Heq]].
    { intros ->. discriminate Hbl. }
    exists q. split; [assumption|]. rewrite Heq, Hbl. reflexivity.
  - intros H24. destruct (Hexact 2%nat H24) as [r (Hr & Hv & _)]. eauto.
  - intros Hmod. unfold coarsen_mean.
    destruct (Nat.eqb_spec (List.length (index s) mod 12) 0) as [E|E];
      [contradiction|].
    cbn [negb]. eauto.
Qed.

Definition months (n : nat) : Series Z :=
  {| index := map (fun i => Z.of_nat (i / 12)) (seq 0 n);
     svalues := map (fun i => Fin (of_nat i)) (seq 0 n) |}.

Lemma coarsen_mean_annual_24 :
  exists r, coarsen_mean 12 (months 24) = Ok r /\
            List.length (svalues r) = 2%nat.
Proof.
  destruct (coarsen_mean_annual (months 24) eq_refl) as [_ [H _]].
  exact (H eq_refl).
Defined.

(** C6, as stated, fails on a series of 25 months: [coarsen] raises
    instead of dropping the last month. *)
Lemma coarsen_mean_25_months :
  coarsen_mean 12 (months 25) =
    Raise (ValueError "Could not coarsen a dimension of size 25 with window 12 and boundary='exact'. Try a different 'boundary' option.") /\
  ~ (exists r, coarsen_mean 12 (months 25) = Ok r /\
               List.length (svalues r) = 2%nat).
Proof.
  split; [reflexivity|].
  intros [r [H _]]. discriminate H.
Qed.

(** ** The alignment loop: models with a missing experiment *)

Lemma keys_dict_set {V} (d : dict V) (k : string) (v : V) (x : string) :
  In x (keys (dict_set d k v)) <-> x = k \/ In x (keys d).
Proof.
  induction d as [|[k' v'] d IH]; simpl.
  - intuition congruence.
  - destruct (String.eqb_spec k' k) as [->|Hne]; simpl.
    + intuition congruence.
    + rewrite IH. intuition congruence.
Qed.

Lemma dict_get_dict_set {V} (d : dict V) (k k' : string) (v : V) :
  dict_get (dict_set d k v) k'
    = if String.eqb k k' then Some v else dict_get d k'.
Proof.
  induction d as [|[k0 v0] d IH]; simpl.
  - reflexivity.
  - destruct (String.eqb_spec k0 k) as [->|Hne]; simpl.
    + now destruct (String.eqb k k').
    + destruct (String.eqb_spec k0 k') as [->|Hne'].
      * destruct (String.eqb_spec k k') as [->|]; [congruence | reflexivity].
      * exact IH.
Qed.

Lemma mapM_length {A B} (f : A -> result B) (l : list A) (r : list B) :
  mapM f l = Ok r -> List.length r = List.length l.
Proof.
  revert r; induction l as [|a l IH]; intros r; simpl.
  - intros [= <-]. reflexivity.
  - destruct (f a) as [b|e]; simpl; [|discriminate].
    destruct (mapM f l) as [bs|e]; simpl; [|discriminate].
    intros [= <-]. simpl. now rewrite (IH bs).
Qed.

Lemma mapM_In {A B} (f : A -> result B) (l : list A) (r : list B) :
  mapM f l = Ok r -> forall a, In a l -> exists b, f a = Ok b /\ In b r.
Proof.
  revert r; induction l as [|a l IH]; intros r; simpl.
  - intros _ a [].
  - destruct (f a) as [b|e] eqn:Ea; simpl; [|discriminate].
    destruct (mapM f l) as [bs|e]; simpl; [|discriminate].
    intros [= <-] x [<-|Hx].
    + exists b. split; [assumption | now left].
    + destruct (IH bs eq_refl x Hx) as [b' [Hb' Hin]].
      exists b'. split; [assumption | now right].
Qed.

Definition skip_line (k : string) : string :=
  ("Missing experiment for " ++ k)%string.

Section AlignFacts.
Variable cosd : Q -> Q.
Variable year_coord : Dataset -> result (list Z).
Variable expts : list string.
Variable how : join.

Let align_model := Align.align_model cosd year_coord expts how.
Let align_loop := Align.align_loop cosd year_coord expts how.

Lemma align_model_skip (k : string) (v : dict (option Dataset)) :
  Align.any_none v = true -> align_model k v = Ok (None, [skip_line k]).
Proof.
  intros H. unfold align_model, Align.align_model. now rewrite H.
Qed.

Lemma add_year_get (v : dict (option Dataset))
      (v' : dict (Dataset * list Z)) :
  mapM (Align.add_year year_coord) v = Ok v' ->
  forall e dy, dict_get v' e = Some dy -> dict_get v e = Some (Some (fst dy)).
Proof.
  revert v'; induction v as [|[k d] v IH]; intros v'; simpl.
  - intros [= <-] e dy H. discriminate H.
  - unfold Align.add_year at 1. simpl.
    destruct d as [ds|]; simpl; [|discriminate].
    destruct (year_coord ds) as [y|err]; simpl; [|discriminate].
    destruct (mapM (Align.add_year year_coord) v) as [w|err]; simpl;
      [|discriminate].
    intros [= <-] e dy. simpl.
    destruct (String.eqb k e).
    + intros [= <-]. reflexivity.
    + now apply IH.
Qed.

Lemma concat_layout (objs : list (Series Q)) (fr : Frame) :
  concat how expts objs = Ok fr ->
  f_expts fr = expts /\ List.length (f_data fr) = List.length objs.
Proof.
  unfold concat. destruct objs as [|o objs]; [discriminate|].
  destruct (indexes_all_equal _).
  - intros [= <-]. simpl. now rewrite length_map.
  - destruct (negb _); [discriminate|].
    intros [= <-]. simpl. now rewrite length_map.
Qed.

(** A frame is stored only for a model that has a dataset for every
    experiment of [expts], and it has a row for each of them. *)
Lemma align_model_frame (k : string) (v : dict (option Dataset))
      (fr : Frame) (out : list string) :
  align_model k v = Ok (Some fr, out) ->
  Align.any_none v = false /\ out = [] /\
  f_expts fr = expts /\ List.length (f_data fr) = List.length expts /\
  forall e, In e expts -> exists ds, dict_get v e = Some (Some ds).
Proof.
  unfold align_model, Align.align_model.
  destruct (Align.any_none v); [discriminate|].
  destruct (mapM (Align.add_year year_coord) v) as [v'|err] eqn:Ev; simpl;
    [|discriminate].
  destruct (mapM _ expts) as [objs|err] eqn:Eo; simpl; [|discriminate].
  destruct (concat how expts objs) as [fr'|err] eqn:Ec; simpl;
    [|discriminate].
  intros [= <- <-].
  destruct (concat_layout _ _ Ec) as [He Hl].
  repeat split; try assumption.
  - rewrite Hl. apply (mapM_length _ _ _ Eo).
  - intros e Hin.
    destruct (mapM_In _ _ _ Eo e Hin) as [s [Hs _]].
    unfold dict_getitem in Hs.
    destruct (dict_get v' e) as [dy|] eqn:Ed; simpl in Hs; [|discriminate].
    exists (fst dy). now apply (add_year_get v v' Ev).
Qed.

Lemma align_loop_printed (items : list (string * dict (option Dataset)))
      (st st' : Align.loop_state) :
  align_loop st items = Ok st' ->
  Align.printed st' =
    Align.printed st
      ++ map (fun kv => skip_line (fst kv))
             (filter (fun kv => Align.any_none (snd kv)) items).
Proof.
  revert st; induction items as [|[k v] items IH]; intros st; simpl.
  - intros [= <-]. now rewrite app_nil_r.
  - fold align_model.
    destruct (align_model k v) as [[fr out]|err] eqn:Em; simpl;
      [|discriminate].
    intros H. rewrite (IH _ H). simpl. clear IH H.
    destruct (Align.any_none v) eqn:En.
    + rewrite (align_model_skip k v En) in Em. injection Em as <- <-.
      simpl. now rewrite <- app_assoc.
    + destruct fr as [fr|].
      * destruct (align_model_frame k v fr out Em) as (_ & -> & _).
        now rewrite app_nil_r.
      * unfold align_model, Align.align_model in Em. rewrite En in Em.
        destruct (mapM (Align.add_year year_coord) v); simpl in Em;
          [|discriminate].
        destruct (mapM _ expts); simpl in Em; [|discriminate].
        destruct (concat how expts _); simpl in Em; discriminate.
Qed.



End AlignFacts.

(** ** The regridding batch *)

Section BatchFacts.
Variable V : Type.
Variable body : string -> string -> string + V.

(** [ctrl_key.split('.')[2]]. *)
Definition model_of (ctrl_key : string) : result string :=
  getitem (split "." ctrl_key) 2.

Definition succeeded (kk : string * string) : bool :=
  match body (fst kk) (snd kk) with inr _ => true | inl _ => false end.

(** The line printed for one pair of keys. *)
Definition batch_line (kk : string * string) : string :=
  match model_of (fst kk), body (fst kk) (snd kk) with
  | Ok model, inl e => ("Failed to regrid " ++ model ++ ": " ++ e)%string
  | Ok model, inr _ => (model ++ " regridded and added to dictionary")%string
  | Raise _, _ => EmptyString
  end.

Lemma batch_loop_ok (kks : list (string * string)) (st : Ohu.batch_state V) :
  (forall kk, In kk kks -> exists model, model_of (fst kk) = Ok model) ->
  exists st', Ohu.batch_loop body st kks = Ok st' /\
    Ohu.model_count st' = (Ohu.model_count st + List.length kks)%nat /\
    Ohu.success_count st' =
      (Ohu.success_count st + List.length (filter succeeded kks))%nat /\
    Ohu.batch_out st' = Ohu.batch_out st ++ map batch_line kks /\
    (forall m, In m (keys (Ohu.ds_regrid_dict st')) <->
               In m (keys (Ohu.ds_regrid_dict st)) \/
               exists kk, In kk kks /\ succeeded kk = true /\
                          model_of (fst kk) = Ok m).
Proof.
  revert st; induction kks as [|[ck ek] kks IH]; intros st Hwf.
  - exists st. simpl. rewrite !Nat.add_0_r, app_nil_r.
    repeat split; try reflexivity.
    + now left.
    + intros [H | [kk [[] _]]]. exact H.
  - destruct (Hwf (ck, ek) (or_introl eq_refl)) as [model Hm].
    simpl in Hm.
    assert (Hwf' : forall kk, In kk kks ->
                              exists model, model_of (fst kk) = Ok model).
    { intros kk Hkk. apply Hwf. now right. }
    cbn [Ohu.batch_loop]. unfold Ohu.batch_step. fold (model_of ck).
    rewrite Hm. cbn [bind map filter List.length].
    destruct (body ck ek) as [e|ds] eqn:Eb; cbn [bind].
    + assert (Hs : succeeded (ck, ek) = false)
        by (unfold succeeded; simpl; now rewrite Eb).
      assert (Hl : batch_line (ck, ek)
                   = ("Failed to regrid " ++ model ++ ": " ++ e)%string)
        by (unfold batch_line; simpl; now rewrite Hm, Eb).
      rewrite Hs, Hl.
      match goal with
      | |- context [Ohu.batch_loop body ?s kks] =>
          destruct (IH s Hwf') as [st' (Hrun & Hmc & Hsc & Hout & Hkeys)]
      end.
      exists st'.
      cbn [Ohu.model_count Ohu.success_count Ohu.batch_out
           Ohu.ds_regrid_dict] in Hmc, Hsc, Hout, Hkeys.
      split; [exact Hrun|]. split; [lia|]. split; [exact Hsc|].
      split; [now rewrite Hout, <- app_assoc|].
      intros m. rewrite Hkeys. split.
      * intros [H | [kk (Hin & Hk & Hmo)]]; [now left|].
        right. exists kk. split; [now right | now split].
      * intros [H | [kk ([<-|Hin] & Hk & Hmo)]]; [now left | |].
        -- congruence.
        -- right. exists kk. now repeat split.
    + assert (Hs : succeeded (ck, ek) = true)
        by (unfold succeeded; simpl; now rewrite Eb).
      assert (Hl : batch_line (ck, ek)
                   = (model ++ " regridded and added to dictionary")%string)
        by (unfold batch_line; simpl; now rewrite Hm, Eb).
      rewrite Hs, Hl.
      match goal with
      | |- context [Ohu.batch_loop body ?s kks] =>
          destruct (IH s Hwf') as [st' (Hrun & Hmc & Hsc & Hout & Hkeys)]
      end.
      exists st'.
      cbn [Ohu.model_count Ohu.success_count Ohu.batch_out
           Ohu.ds_regrid_dict] in Hmc, Hsc, Hout, Hkeys.
      split; [exact Hrun|]. split; [lia|]. split; [simpl; lia|].
      split; [now rewrite Hout, <- app_assoc|].
      intros m. rewrite Hkeys, keys_dict_set. split.
      * intros [[->|H] | [kk (Hin & Hk & Hmo)]].
        -- right. exists (ck, ek). split; [now left|]. now split.
        -- now left.
        -- right. exists kk. split; [now right | now split].
      * intros [H | [kk ([<-|Hin] & Hk & Hmo)]].
        -- left. now right.
        -- simpl in Hmo. left. left. congruence.
        -- right. exists kk. now repeat split.
Qed.
End BatchFacts.

Arguments succeeded {V}.
Arguments batch_line {V}.

(** The alignment loop of the sensitivity notebook prints nothing but the
    lines of the models it leaves out. *)
Lemma ecs_printed (cosd : Q -> Q) (dsets_ : dict (dict (option Dataset)))
      (st : Align.loop_state) :
  Ecs.align_all cosd dsets_ = Ok st ->
  Align.printed st =
    map (fun kv => skip_line (fst kv))
        (filter (fun kv => Align.any_none (snd kv)) dsets_).
Proof.
  intros H. unfold Ecs.align_all, Align.align_all in H.
  exact (align_loop_printed cosd Ecs.year_coord Ecs.expts JoinRight _ _ _ H).
Qed.

Lemma summary_not_skip_line (succ total : nat) (k : string) :
  Ohu.summary succ total <> skip_line k.
Proof.
  unfold Ohu.summary, skip_line. cbn [repeat_char String.append].
  discriminate.
Qed.

(** C9, as amended.  In the regridding loop every exception raised by
    the body under [try] is caught, printed with the model and its text
    and counted; provided each control key has the model field that is
    read before [try], the loop ends, every pair of keys is counted in
    [model_count], the successes in [success_count], and the last line
    printed is the summary of the two counts.  In the sensitivity notebook
    a conflict of the merge is turned into a missing dataset, the model is
    left out with a printed line, and no count is printed at all. *)
Theorem batch_errors_are_skips (V : Type) (body : string -> string -> string + V)
        (ctrl_keys expr_keys : list string) :
  (forall kk, In kk (zip ctrl_keys expr_keys) ->
              exists model, model_of (fst kk) = Ok model) ->
  (exists st, Ohu.regrid_batch body ctrl_keys expr_keys = Ok st /\
     Ohu.model_count st = List.length (zip ctrl_keys expr_keys) /\
     Ohu.success_count st =
       List.length (filter (succeeded body) (zip ctrl_keys expr_keys)) /\
     Ohu.batch_out st =
       map (batch_line body) (zip ctrl_keys expr_keys)
         ++ [Ohu.summary (Ohu.success_count st) (Ohu.model_count st)] /\
     (forall m, In m (keys (Ohu.ds_regrid_dict st)) <->
                exists kk, In kk (zip ctrl_keys expr_keys) /\
                           succeeded body kk = true /\
                           model_of (fst kk) = Ok m)) /\
  (forall merge df dsets msg,
     Ecs.open_stores df = Ok dsets -> merge dsets = Raise (ValueError msg) ->
     Ecs.open_dsets merge df = Ok None) /\
  (forall cosd k v, Align.any_none v = true ->
     Align.align_model cosd Ecs.year_coord Ecs.expts JoinRight k v
       = Ok (None, [skip_line k])) /\
  (forall cosd dsets_ st, Ecs.align_all cosd dsets_ = Ok st ->
     forall succ total, ~ In (Ohu.summary succ total) (Align.printed st)).
Proof.
  intros Hwf. split; [|split; [|split]].
  - destruct (batch_loop_ok V body _ Ohu.batch_init Hwf)
      as [st (Hrun & Hmc & Hsc & Hout & Hkeys)].
    unfold Ohu.regrid_batch. rewrite Hrun. cbn [bind].
    eexists. split; [reflexivity|]. cbn.
    split; [exact Hmc|]. split; [exact Hsc|].
    split; [now rewrite Hout|].
    intros m. rewrite Hkeys. simpl. split.
    + intros [[] | H]. exact H.
    + intros H. now right.
  - intros merge df dsets msg Hopen Hmerge. unfold Ecs.open_dsets.
    rewrite Hopen. cbn [bind]. now rewrite Hmerge.
  - intros cosd k v. apply align_model_skip.
  - intros cosd dsets_ st Hrun succ total Hin.
    rewrite (ecs_printed _ _ _ Hrun) in Hin.
    apply in_map_iff in Hin. destruct Hin as [kv [Heq _]].
    symmetry in Heq. now apply summary_not_skip_line in Heq.
Qed.

(** ** A batch of three models *)

(** A stand-in for the cosine of an angle in degrees, exact at 0 and at
    the poles and positive in between. *)
Definition cosd_demo (x : Q) : Q := 1 - (x / 90) * (x / 90).

(** One year of monthly fields on a grid of two latitudes and two
    longitudes, starting in January of the year [y]. *)
Definition ds_year (y : Z) : Dataset :=
  {| coords := [("lat"%string, [0; 60]); ("lon"%string, [0; 180])];
     lat_dim := "lat"; lon_dim := "lon";
     time := map (fun m => {| year := y; month := Z.of_nat m |}) (seq 1 12);
     data := map (fun m => [[Fin (of_nat m); Fin 1]; [Fin 2; Fin 3]])
                 (seq 1 12) |}.

(** A stand-in for [xr.merge(dsets, join='exact')]: the datasets are
    merged when they have the years of the first one, and there is a
    conflict when they have not. *)
Definition merge_demo (dsets : list Dataset) : result Dataset :=
  match dsets with
  | [] => Raise (RuntimeError "no store")
  | ds :: rest =>
      if forallb (fun d => if list_eq_dec Z.eq_dec (map year (time d))
                                          (map year (time ds))
                           then true else false) rest
      then Ok ds
      else Raise (ValueError "cannot align objects with join='exact'")
  end.

(** The stores of three models, one variable in each; the two stores
    of the forcing experiment of the model B do not cover the same
    years. *)
Definition stores_demo : dict (dict (list (result Dataset))) :=
  [("A"%string, [("piControl"%string, [Ok (ds_year 1850); Ok (ds_year 1850)]);
                 ("abrupt-2xCO2"%string, [Ok (ds_year 1); Ok (ds_year 1)])]);
   ("B"%string, [("piControl"%string, [Ok (ds_year 1850); Ok (ds_year 1850)]);
                 ("abrupt-2xCO2"%string, [Ok (ds_year 1); Ok (ds_year 2)])]);
   ("C"%string, [("piControl"%string, [Ok (ds_year 1900); Ok (ds_year 1900)]);
                 ("abrupt-2xCO2"%string, [Ok (ds_year 1); Ok (ds_year 1)])])].

Definition dsets_demo : dict (dict (option Dataset)) :=
  [("A"%string, [("piControl"%string, Some (ds_year 1850));
                 ("abrupt-2xCO2"%string, Some (ds_year 1))]);
   ("B"%string, [("piControl"%string, Some (ds_year 1850));
                 ("abrupt-2xCO2"%string, None)]);
   ("C"%string, [("piControl"%string, Some (ds_year 1900));
                 ("abrupt-2xCO2"%string, Some (ds_year 1))])].

Definition aligned_demo : Align.loop_state :=
  Eval vm_compute in
    match Ecs.align_all cosd_demo dsets_demo with
    | Ok st => st
    | Raise _ => {| Align.dsets_aligned := []; Align.printed := [] |}
    end.

Lemma open_all_demo : Ecs.open_all merge_demo stores_demo = Ok dsets_demo.
Proof. vm_compute. reflexivity. Qed.

Lemma align_all_demo : Ecs.align_all cosd_demo dsets_demo = Ok aligned_demo.
Proof. vm_compute. reflexivity. Defined.

Lemma keys_demo : NoDup (keys dsets_demo).
Proof.
  repeat constructor; simpl; intuition discriminate.
Defined.


(** C9, as stated, fails in the sensitivity notebook: of three models one
    has a merge conflict; two are aligned, the third is left out with a
    line that gives no count, and no summary of the batch is printed. *)
Lemma ecs_batch_prints_no_summary :
  Ecs.open_all merge_demo stores_demo = Ok dsets_demo /\
  Ecs.align_all cosd_demo dsets_demo = Ok aligned_demo /\
  keys (Align.dsets_aligned aligned_demo) = ["A"%string; "C"%string] /\
  Align.printed aligned_demo = ["Missing experiment for B"%string] /\
  ~ (exists succ total,
       In (Ohu.summary succ total) (Align.printed aligned_demo)).
Proof.
  split; [exact open_all_demo|]. split; [exact align_all_demo|].
  split; [reflexivity|]. split; [reflexivity|].
  intros [succ [total [H|[]]]].
  symmetry in H. now apply (summary_not_skip_line succ total "B") in H.
Qed.

Definition body_demo (ctrl_key expr_key : string) : string + nat :=
  if contains "CESM2-FV2" ctrl_key then inl "dimension mismatch"%string
  else inr (String.length expr_key).

Definition ctrl_keys_demo : list string :=
  ["CMIP.CCCma.CanESM5.piControl.Omon.gn"%string;
   "CMIP.NCAR.CESM2-FV2.piControl.Omon.gn"%string;
   "CMIP.NOAA-GFDL.GFDL-CM4.piControl.Omon.gn"%string].

Definition expr_keys_demo : list string :=
  ["CMIP.CCCma.CanESM5.1pctCO2.Omon.gn"%string;
   "CMIP.NCAR.CESM2-FV2.1pctCO2.Omon.gn"%string;
   "CMIP.NOAA-GFDL.GFDL-CM4.1pctCO2.Omon.gn"%string].

Lemma keys_demo_models :
  forall kk, In kk (zip ctrl_keys_demo expr_keys_demo) ->
             exists model, model_of (fst kk) = Ok model.
Proof.
  intros kk [<-|[<-|[<-|[]]]]; eexists; reflexivity.
Defined.

Lemma batch_errors_are_skips_demo :
  exists st,
    Ohu.regrid_batch body_demo ctrl_keys_demo expr_keys_demo = Ok st /\
    Ohu.model_count st = 3%nat /\ Ohu.success_count st = 2%nat /\
    Ohu.batch_out st =
      ["CanESM5 regridded and added to dictionary"%string;
       "Failed to regrid CESM2-FV2: dimension mismatch"%string;
       "GFDL-CM4 regridded and added to dictionary"%string;
       Ohu.summary 2 3].
Proof.
  destruct (batch_errors_are_skips nat body_demo ctrl_keys_demo expr_keys_demo
              keys_demo_models) as [[st (Hrun & Hmc & Hsc & Hout & _)] _].
  exists st. split; [exact Hrun|]. split; [exact Hmc|]. split; [exact Hsc|].
  rewrite Hout, Hmc, Hsc. reflexivity.
Defined.

(** Two years of monthly fields, starting in January of the year [y]. *)
Definition ds_two_years (y : Z) : Dataset :=
  {| coords := [("lat"%string, [0%Q; 60%Q])];
     lat_dim := "lat"; lon_dim := "lon";
     time := map (fun i => {| year := y + Z.of_nat (i / 12);
                              month := Z.of_nat (i mod 12) + 1 |})
                 (seq 0 24);
     data := map (fun i => [[Fin (of_nat i)]; [Fin 1%Q]]) (seq 0 24) |}.

Definition annual_index (year_coord : Dataset -> result (list Z))
           (ds : Dataset) : result (list Q) :=
  y <- year_coord ds ;;
  s <- Align.annual_mean cosd_demo (ds, y) ;;
  Ok (map Qred (index s)).

(** The annual series of a run that starts in 1850 is labelled 0, 1 in
    the sensitivity notebook and 1850, 1851 in the surface-temperature
    notebook. *)
Example annual_index_ecs :
  annual_index Ecs.year_coord (ds_two_years 1850) = Ok [0%Q; 1%Q].
Proof. vm_compute. reflexivity. Qed.

Example annual_index_gmst :
  annual_index Gmst.year_coord (ds_two_years 1850) = Ok [1850%Q; 1851%Q].
Proof. vm_compute. reflexivity. Qed.

(** ** Joining the experiments of a model *)

Local Open Scope Q_scope.


Definition well_indexed (s : Series Q) : Prop :=
  is_unique (index s) = true /\
  List.length (svalues s) = List.length (index s).















Lemma all_unique (objs : list (Series Q)) :
  Forall well_indexed objs -> forallb is_unique (map index objs) = true.
Proof.
  induction 1 as [|s objs [Hu _] _ IH]; simpl; [reflexivity|].
  now rewrite Hu, IH.
Qed.

















Section Stacking.
Variable cosd : Q -> Q.
Variable year_coord : Dataset -> result (list Z).
Variable expts : list string.
Variable how : join.




End Stacking.


Definition control_demo : Series Q :=
  {| index := [0; 1; 2]; svalues := [Fin 10; Fin 11; Fin 12] |}.

Definition forcing_demo : Series Q :=
  {| index := [0; 1]; svalues := [Fin 20; Fin 21] |}.

Definition scenario_demo : Series Q :=
  {| index := [2; 3]; svalues := [Fin 32; Fin 33] |}.

(** Joined on the right, the third year of the control run is dropped. *)
Example concat_right_demo :
  concat JoinRight Ecs.expts [control_demo; forcing_demo]
    = Ok {| f_index := [0; 1]; f_expts := Ecs.expts;
            f_data := [[Fin 10; Fin 11]; [Fin 20; Fin 21]] |}.
Proof. reflexivity. Qed.

(** Joined on the outside, the years of all series are kept and the
    years a series does not have are NaN. *)
Example concat_outer_demo :
  concat JoinOuter Gmst.expts [control_demo; forcing_demo; scenario_demo]
    = Ok {| f_index := [0; 1; 2; 3]; f_expts := Gmst.expts;
            f_data := [[Fin 10; Fin 11; Fin 12; NaN];
                       [Fin 20; Fin 21; NaN; NaN];
                       [NaN; NaN; Fin 32; Fin 33]] |}.
Proof. reflexivity. Qed.

(** A model of the sensitivity notebook with two years of control run
    and one year of forcing experiment: the frame has the one year of
    the forcing experiment, the second year of the control run is
    dropped. *)
Example ecs_frame_demo :
  exists st fr,
    Ecs.align_all cosd_demo
      [("A"%string, [("piControl"%string, Some (ds_two_years 1850));
                     ("abrupt-2xCO2"%string, Some (ds_year 1))])] = Ok st /\
    dict_get (Align.dsets_aligned st) "A" = Some fr /\
    index_eqb (f_index fr) [0] = true /\
    map (map isnan) (f_data fr) = [[false]; [false]].
Proof.
  eexists. eexists. split; [vm_compute; reflexivity|].
  split; [vm_compute; reflexivity|]. split; reflexivity.
Qed.

(** A model of the surface-temperature notebook: two years of the
    historical run, then one year of each scenario.  The frame has the
    three years; each run is NaN in the years it does not have. *)
Example gmst_frame_demo :
  exists st fr,
    Gmst.align_all cosd_demo
      [("A"%string, [("historical"%string, Some (ds_two_years 1850));
                     ("ssp245"%string, Some (ds_year 1852));
                     ("ssp585"%string, Some (ds_year 1852))])] = Ok st /\
    dict_get (Align.dsets_aligned st) "A" = Some fr /\
    index_eqb (f_index fr) [1850; 1851; 1852] = true /\
    map (map isnan) (f_data fr)
      = [[false; false; true]; [true; true; false]; [true; true; false]].
Proof.
  eexists. eexists. split; [vm_compute; reflexivity|].
  split; [vm_compute; reflexivity|]. split; reflexivity.
Qed.

(** ** The global mean *)

Lemma sumQ_app (a b : list Q) : sumQ (a ++ b) == sumQ a + sumQ b.
Proof.
  induction a as [|x a IH]; simpl; [ring | rewrite IH; ring].
Qed.

Lemma sumQ_concat (l : list (list Q)) :
  sumQ (List.concat l) == sumQ (map sumQ l).
Proof.
  induction l as [|r l IH]; simpl; [reflexivity|].
  now rewrite sumQ_app, IH.
Qed.

Lemma sumQ_scale (w : Q) (l : list Q) :
  sumQ (map (fun v => v * w) l) == w * sumQ l.
Proof.
  induction l as [|x l IH]; simpl; [ring | rewrite IH; ring].
Qed.

Lemma sumQ_div (m : Q) (l : list Q) :
  sumQ (map (fun c => c / m) l) == sumQ l / m.
Proof.
  induction l as [|x l IH]; simpl.
  - unfold Qdiv. ring.
  - rewrite IH. unfold Qdiv. ring.
Qed.

Lemma zip_map {A B C D} (f : A -> C) (g : B -> D) (a : list A) (b : list B) :
  zip (map f a) (map g b) = map (fun p => (f (fst p), g (snd p))) (zip a b).
Proof.
  revert b; induction a as [|x a IH]; intros [|y b]; simpl;
    try reflexivity.
  now rewrite IH.
Qed.

Lemma of_nat_mul (a b : nat) : of_nat (a * b) == of_nat a * of_nat b.
Proof.
  unfold of_nat. now rewrite Nat2Z.inj_mul, inject_Z_mult.
Qed.

Lemma of_nat_nonzero (n : nat) : (0 < n)%nat -> ~ of_nat n == 0.
Proof.
  intros H E. apply of_nat_pos in H. rewrite E in H.
  now apply Qlt_irrefl in H.
Qed.

(** The weights of the rows, each multiplied into its row. *)
Definition scaled (ws : list Q) (g : list (list Q)) : list (list Q) :=
  map (fun wr => map (fun v => v * fst wr) (snd wr)) (zip ws g).

(** The sum of the grid, each row weighted. *)
Definition weighted_sum (ws : list Q) (g : list (list Q)) : Q :=
  sumQ (map (fun wr => fst wr * sumQ (snd wr)) (zip ws g)).

(** A grid of [nlat] rows of [nlon] values. *)
Definition grid_ok (nlat nlon : nat) (g : list (list Q)) : Prop :=
  List.length g = nlat /\ Forall (fun row => List.length row = nlon) g.

Lemma times_weight_finite (ws : list Q) (g : list (list Q)) :
  times_weight (map Fin ws) (map (map Fin) g) = map (map Fin) (scaled ws g).
Proof.
  unfold times_weight, scaled. rewrite zip_map, !map_map.
  apply map_ext. intros [w row]. simpl. rewrite !map_map. reflexivity.
Qed.

Lemma sumQ_scaled (ws : list Q) (g : list (list Q)) :
  sumQ (List.concat (scaled ws g)) == weighted_sum ws g.
Proof.
  rewrite sumQ_concat. unfold scaled, weighted_sum. rewrite map_map.
  generalize (zip ws g) as l. induction l as [|[w row] l IH]; simpl;
    [reflexivity|].
  now rewrite IH, sumQ_scale.
Qed.

Lemma length_scaled (ws : list Q) (g : list (list Q)) (nlon : nat) :
  List.length ws = List.length g ->
  Forall (fun row => List.length row = nlon) g ->
  List.length (List.concat (scaled ws g)) = (List.length g * nlon)%nat.
Proof.
  revert g; induction ws as [|w ws IH]; intros [|row g] Hl Hg;
    simpl in *; try discriminate; [reflexivity|].
  inversion Hg as [|? ? Hrow Hrest]; subst.
  unfold scaled in IH. rewrite length_app, length_map, IH; auto.
Qed.

Lemma weighted_sum_div (m : Q) (cs : list Q) (g : list (list Q)) :
  weighted_sum (map (fun c => c / m) cs) g == weighted_sum cs g / m.
Proof.
  unfold weighted_sum.
  revert g; induction cs as [|c cs IH]; intros [|row g]; simpl;
    try (unfold Qdiv; ring).
  rewrite IH. unfold Qdiv. ring.
Qed.

(** The mean of finite values, by their number. *)
Lemma nanmean_finite_length (l : list Q) :
  (0 < List.length l)%nat ->
  exists q, nanmean (map Fin l) = Fin q /\
            q == sumQ l / of_nat (List.length l).
Proof.
  intros H. apply nanmean_finite. intros ->. simpl in H. lia.
Qed.

(** Normalising finite weights whose sum is not zero gives finite
    weights of mean one. *)
Lemma normalized_finite (cs : list Q) :
  ~ sumQ cs == 0 ->
  exists m, m == sumQ cs / of_nat (List.length cs) /\ ~ m == 0 /\
    normalized (map Fin cs) = map Fin (map (fun c => c / m) cs) /\
    sumQ (map (fun c => c / m) cs) / of_nat (List.length cs) == 1.
Proof.
  intros Hs.
  assert (Hn : (0 < List.length cs)%nat).
  { destruct cs; [exfalso; apply Hs; reflexivity | simpl; lia]. }
  pose proof (of_nat_nonzero _ Hn) as Hn0.
  destruct (nanmean_finite_length cs Hn) as [m [Hm Hmq]].
  assert (Hm0 : ~ m == 0).
  { rewrite Hmq. intros E. apply Hs.
    rewrite <- (Qmult_div_r (sumQ cs) (of_nat (List.length cs))) by assumption.
    rewrite E. ring. }
  exists m. split; [assumption|]. split; [assumption|]. split.
  - unfold normalized. rewrite Hm, !map_map. apply map_ext. intros c.
    simpl. destruct (Qeq_bool m 0) eqn:E; [|reflexivity].
    apply Qeq_bool_iff in E. contradiction.
  - rewrite sumQ_div, Hmq. field. split; assumption.
Qed.

Lemma r_dims_time (ds : Dataset) :
  lat_dim ds <> "time"%string -> lon_dim ds <> "time"%string ->
  filter (fun d => negb (mem d (other_dims ds))) (dims ds) = ["time"%string].
Proof.
  intros Ha Hb.
  assert (Hin : forall d, In d (dims ds) -> d <> "time"%string ->
                          mem d (other_dims ds) = true).
  { intros d Hd Hne. apply mem_In. unfold other_dims. apply filter_In.
    split; [now apply nodup_In|].
    apply negb_true_iff. now apply String.eqb_neq. }
  assert (Ht : mem "time" (other_dims ds) = false).
  { apply mem_false. unfold other_dims. rewrite filter_In.
    intros [_ H]. discriminate H. }
  unfold dims in *. cbn [filter].
  rewrite Ht, (Hin (lat_dim ds)), (Hin (lon_dim ds)); simpl; auto.
Qed.

(** C3.  For a dataset with a latitude coordinate under one of the two
    names (and spatial dimensions not called ['time']) the reduction
    returns a series whose only dimension is ['time'], with the time index
    and the length of the input.  Where the cosines of the latitudes do
    not sum to zero, the weights are the cosines divided by their mean,
    so their mean is one; and for a time step whose grid is finite the
    value returned is the weighted average of the grid: the sum of the
    values, each times the cosine of its latitude, over the sum of these
    cosines taken over the grid. *)
Theorem global_mean_weighted_average (cosd : Q -> Q) (ds : Dataset) :
  In "lat"%string (keys (coords ds)) \/ In "latitude"%string (keys (coords ds)) ->
  lat_dim ds <> "time"%string -> lon_dim ds <> "time"%string ->
  exists r lat_name lat,
    global_mean cosd ds = Ok r /\
    get_lat_name ds = Ok lat_name /\
    dict_get (coords ds) lat_name = Some lat /\
    r_dims r = ["time"%string] /\
    r_time r = time ds /\
    List.length (r_data r) = List.length (data ds) /\
    (~ sumQ (map cosd lat) == 0 ->
     (exists ws, normalized (cos_weight cosd lat) = map Fin ws /\
                 sumQ ws / of_nat (List.length ws) == 1 /\
                 forall i, nth i ws 0 ==
                           nth i (map cosd lat) 0
                           / (sumQ (map cosd lat) / of_nat (List.length lat))) /\
     (forall t g nlon,
        nth_error (data ds) t = Some (map (map Fin) g) ->
        grid_ok (List.length lat) nlon g -> (0 < nlon)%nat ->
        exists q, nth_error (r_data r) t = Some (Fin q) /\
                  q == weighted_sum (map cosd lat) g
                       / (of_nat nlon * sumQ (map cosd lat)))).
Proof.
  intros Hlat Ha Hb.
  assert (Hname : exists lat_name, get_lat_name ds = Ok lat_name /\
                                   In lat_name (keys (coords ds))).
  { destruct (get_lat_name_cases ds) as [[H1 Hn] | [[H1 [H2 Hn]] | [H1 [H2 _]]]];
      [eauto | eauto | tauto]. }
  destruct Hname as [lat_name [Hn Hin]].
  destruct (dict_get_keys _ _ Hin) as [lat Hl].
  unfold global_mean. rewrite Hn. cbn [bind].
  unfold dict_getitem. rewrite Hl. cbn [bind].
  eexists. exists lat_name, lat.
  split; [reflexivity|]. cbn [r_dims r_time r_data].
  split; [reflexivity|]. split; [exact Hl|].
  split; [now apply r_dims_time|]. split; [reflexivity|].
  split; [apply length_map|].
  intros Hs.
  set (cs := map cosd lat) in *.
  assert (Hcw : cos_weight cosd lat = map Fin cs)
    by (unfold cos_weight, cs; now rewrite map_map).
  destruct (normalized_finite cs Hs) as [m (Hm & Hm0 & Hnorm & Hmean)].
  assert (Hlen : List.length cs = List.length lat) by apply length_map.
  assert (Hn0 : ~ of_nat (List.length lat) == 0).
  { apply of_nat_nonzero. rewrite <- Hlen.
    destruct cs; [exfalso; apply Hs; reflexivity | simpl; lia]. }
  rewrite Hcw, Hnorm. split.
  - exists (map (fun c => c / m) cs). split; [reflexivity|].
    rewrite length_map. split; [exact Hmean|].
    intros i. rewrite <- Hlen, <- Hm.
    destruct (Nat.lt_ge_cases i (List.length cs)) as [Hi|Hi].
    + rewrite (nth_indep _ 0 (0 / m)) by (now rewrite length_map).
      now rewrite (map_nth (fun c => c / m)).
    + rewrite !nth_overflow by (rewrite ?length_map; lia).
      unfold Qdiv. ring.
  - intros t g nlon Ht [Hrows Hcols] Hnlon.
    rewrite nth_error_map, Ht. cbn [option_map].
    rewrite times_weight_finite, <- concat_map.
    assert (Hlg : List.length (List.concat (scaled (map (fun c => c / m) cs) g))
                  = (List.length lat * nlon)%nat).
    { rewrite (length_scaled _ g nlon), Hrows; auto.
      now rewrite length_map, Hlen, Hrows. }
    destruct (nanmean_finite_length
                (List.concat (scaled (map (fun c => c / m) cs) g)))
      as [q [Hq Hqv]].
    { rewrite Hlg. destruct (List.length lat) eqn:E.
      - exfalso. apply Hn0. reflexivity.
      - simpl. lia. }
    exists q. split; [now rewrite Hq|].
    rewrite Hqv, Hlg, sumQ_scaled, weighted_sum_div, of_nat_mul, Hm, Hlen.
    field. repeat split; try assumption.
    now apply of_nat_nonzero.
Qed.

Lemma ds_year_lat (y : Z) :
  In "lat"%string (keys (coords (ds_year y))) \/
  In "latitude"%string (keys (coords (ds_year y))).
Proof. left. left. reflexivity. Defined.

Lemma ds_year_dims (y : Z) :
  lat_dim (ds_year y) <> "time"%string /\ lon_dim (ds_year y) <> "time"%string.
Proof. split; discriminate. Defined.

Lemma global_mean_weighted_average_demo :
  exists r, global_mean cosd_demo (ds_year 1850) = Ok r /\
            r_dims r = ["time"%string] /\
            r_time r = time (ds_year 1850) /\
            List.length (r_data r) = 12%nat.
Proof.
  destruct (global_mean_weighted_average cosd_demo (ds_year 1850)
              (ds_year_lat 1850)
              (proj1 (ds_year_dims 1850)) (proj2 (ds_year_dims 1850)))
    as [r [lat_name [lat (Hr & _ & _ & Hd & Ht & Hl & _)]]].
  exists r. repeat split; assumption.
Defined.

(** The first month of [ds_year]: the values 1, 1 at the equator (weight
    1) and 2, 3 at 60 degrees (weight 5/9 with [cosd_demo]) average to
    (1 + 1 + 5/9 * (2 + 3)) / (2 * (1 + 5/9)). *)
Example global_mean_first_month :
  exists r q, global_mean cosd_demo (ds_year 1850) = Ok r /\
              nth_error (r_data r) 0 = Some (Fin q) /\ q == 43 # 28.
Proof.
  eexists. eexists. split; [reflexivity|]. split; [vm_compute; reflexivity|].
  reflexivity.
Qed.

(** ** The least-squares line *)

Definition sumsq (l : list Q) : Q := sumQ (map (fun y => y * y) l).

(** The sum of the squared distances from [x] to the elements of [l]. *)
Definition sqdist (x : Q) (l : list Q) : Q :=
  sumQ (map (fun y => (x - y) * (x - y)) l).


Lemma dotQ_self (l : list Q) : dotQ l l == sumsq l.
Proof.
  unfold dotQ, sumsq. induction l as [|x l IH]; simpl; [reflexivity|].
  now rewrite IH.
Qed.

Lemma square_nonneg (x : Q) : 0 <= x * x.
Proof. nra. Qed.

Lemma sqdist_nonneg (x : Q) (l : list Q) : 0 <= sqdist x l.
Proof.
  unfold sqdist. induction l as [|y l IH]; simpl; [apply Qle_refl|].
  pose proof (square_nonneg (x - y)). lra.
Qed.

Lemma sqdist_expand (x : Q) (l : list Q) :
  sqdist x l == of_nat (List.length l) * (x * x) - 2 * x * sumQ l + sumsq l.
Proof.
  unfold sqdist, sumsq. induction l as [|y l IH].
  - simpl. unfold of_nat. simpl. ring.
  - cbn [map sumQ fold_right List.length]. fold (sumQ (map (fun y => (x - y) * (x - y)) l)).
    fold (sumQ l). fold (sumQ (map (fun y => y * y) l)).
    rewrite IH, of_nat_S. ring.
Qed.

Lemma spread_cons (x : Q) (l : list Q) :
  spread (x :: l) == spread l + sqdist x l.
Proof.
  unfold spread. rewrite sqdist_expand, !dotQ_self.
  unfold sumsq. cbn [map sumQ fold_right List.length].
  fold (sumQ l). fold (sumQ (map (fun y => y * y) l)).
  rewrite of_nat_S. ring.
Qed.

Lemma spread_nonneg (l : list Q) : 0 <= spread l.
Proof.
  induction l as [|x l IH].
  - unfold spread, dotQ, of_nat. simpl. lra.
  - rewrite spread_cons. pose proof (sqdist_nonneg x l). lra.
Qed.

Lemma sqdist_zero (x : Q) (l : list Q) :
  sqdist x l == 0 -> forall y, In y l -> y == x.
Proof.
  induction l as [|z l IH]; intros H y Hin; [destruct Hin|].
  unfold sqdist in H. cbn [map sumQ fold_right] in H.
  fold (sumQ (map (fun y => (x - y) * (x - y)) l)) in H.
  fold (sqdist x l) in H.
  pose proof (sqdist_nonneg x l) as Hl.
  pose proof (square_nonneg (x - z)) as Hz.
  assert (Hl0 : sqdist x l == 0) by lra.
  assert (Hz0 : (x - z) * (x - z) == 0) by lra.
  destruct Hin as [<-|Hin]; [|now apply IH].
  apply Qmult_integral in Hz0. lra.
Qed.

(** The spread is zero only when all the values are equal. *)
Lemma spread_zero (l : list Q) :
  spread l == 0 -> forall y z, In y l -> In z l -> y == z.
Proof.
  induction l as [|x l IH]; intros H y z Hy Hz; [destruct Hy|].
  rewrite spread_cons in H.
  pose proof (spread_nonneg l) as Hs.
  pose proof (sqdist_nonneg x l) as Hd.
  assert (Hs0 : spread l == 0) by lra.
  assert (Hd0 : sqdist x l == 0) by lra.
  pose proof (sqdist_zero x l Hd0) as Hx.
  destruct Hy as [<-|Hy], Hz as [<-|Hz].
  - reflexivity.
  - symmetry. now apply Hx.
  - now apply Hx.
  - now apply IH.
Qed.





Lemma nonzero_eqb (x : Q) : ~ x == 0 -> Qeq_bool x 0 = false.
Proof.
  intros H. destruct (Qeq_bool x 0) eqn:E; [|reflexivity].
  apply Qeq_bool_iff in E. contradiction.
Qed.

Lemma finite_values_Fin (l : list Q) : finite_values (map Fin l) = Some l.
Proof.
  induction l as [|x l IH]; simpl; [reflexivity | now rewrite IH].
Qed.







(** ** The sensitivity estimate *)









(** ** Missing markers *)








(** * Further properties of the notebooks *)

(** ** [drop_all_bounds] *)

Lemma keys_filter {V} (P : string -> bool) (d : dict V) :
  keys (filter (fun kv => P (fst kv)) d) = filter P (keys d).
Proof.
  unfold keys. induction d as [|[k v] d IH]; simpl; [reflexivity|].
  destruct (P k); simpl; now rewrite IH.
Qed.

Lemma dict_get_filter {V} (P : string -> bool) (d : dict V) (name : string) :
  dict_get (filter (fun kv => P (fst kv)) d) name
    = if P name then dict_get d name else None.
Proof.
  induction d as [|[k v] d IH]; simpl.
  - now destruct (P name).
  - destruct (P k) eqn:Ek; simpl.
    + destruct (String.eqb_spec k name) as [->|Hne].
      * now rewrite Ek.
      * exact IH.
    + destruct (String.eqb_spec k name) as [->|Hne].
      * rewrite Ek in IH |- *. exact IH.
      * exact IH.
Qed.

Lemma filter_idem {A} (f : A -> bool) (l : list A) :
  filter f (filter f l) = filter f l.
Proof.
  induction l as [|x l IH]; simpl; [reflexivity|].
  destruct (f x) eqn:E; simpl; [rewrite E|]; now rewrite ?IH.
Qed.

(** A coordinate is kept when its name is not one of the names to
    drop. *)
Lemma kept_coord (names : list string) (k : string) :
  In k names -> negb (mem k (filter is_bounds names)) = negb (is_bounds k).
Proof.
  intros Hin. f_equal.
  destruct (is_bounds k) eqn:E.
  - apply mem_In, filter_In. now split.
  - apply mem_false. rewrite filter_In. intros [_ H]. congruence.
Qed.

Lemma drop_all_bounds_coords (ds : Dataset) :
  coords (drop_all_bounds ds)
    = filter (fun kv => negb (is_bounds (fst kv))) (coords ds).
Proof.
  unfold drop_all_bounds. cbn [coords].
  apply filter_ext_in. intros [k v] Hin. cbn [fst].
  apply kept_coord. apply (in_map fst) in Hin. exact Hin.
Qed.

Lemma drop_all_bounds_eq (ds : Dataset) :
  drop_all_bounds ds
    = {| coords := filter (fun kv => negb (is_bounds (fst kv))) (coords ds);
         lat_dim := lat_dim ds; lon_dim := lon_dim ds;
         time := time ds; data := data ds |}.
Proof.
  rewrite <- drop_all_bounds_coords. reflexivity.
Qed.

(** What [drop_all_bounds] removes and what it keeps: the coordinates
    left are those of the dataset whose name contains neither ['_bounds']
    nor ['_bnds'], each with its values; a coordinate with one of these
    in its name is no longer found, and a second application changes
    nothing. *)
Theorem drop_all_bounds_keeps_the_rest (ds : Dataset) :
  (forall name, In name (keys (coords (drop_all_bounds ds))) <->
                In name (keys (coords ds)) /\
                contains "_bounds" name = false /\
                contains "_bnds" name = false) /\
  (forall name, contains "_bounds" name = false ->
                contains "_bnds" name = false ->
                dict_get (coords (drop_all_bounds ds)) name
                  = dict_get (coords ds) name) /\
  (forall name, contains "_bounds" name = true \/ contains "_bnds" name = true ->
                dict_get (coords (drop_all_bounds ds)) name = None) /\
  drop_all_bounds (drop_all_bounds ds) = drop_all_bounds ds.
Proof.
  assert (Hb : forall name, is_bounds name = false <->
                            contains "_bounds" name = false /\
                            contains "_bnds" name = false).
  { intros name. unfold is_bounds. apply orb_false_iff. }
  split; [|split; [|split]].
  - intros name.
    rewrite drop_all_bounds_coords,
      (keys_filter (fun k => negb (is_bounds k))), filter_In.
    rewrite negb_true_iff, Hb. reflexivity.
  - intros name H1 H2.
    rewrite drop_all_bounds_coords,
      (dict_get_filter (fun k => negb (is_bounds k))).
    assert (E : is_bounds name = false) by (apply Hb; now split).
    now rewrite E.
  - intros name H.
    rewrite drop_all_bounds_coords,
      (dict_get_filter (fun k => negb (is_bounds k))).
    assert (E : is_bounds name = true)
      by (unfold is_bounds; apply orb_true_iff; exact H).
    now rewrite E.
  - rewrite (drop_all_bounds_eq (drop_all_bounds ds)).
    rewrite (drop_all_bounds_eq ds) at 1 2 3 4 5. cbn [coords lat_dim lon_dim time data].
    rewrite filter_idem. symmetry. apply drop_all_bounds_eq.
Qed.

Lemma mem_keys_drop (ds : Dataset) (name : string) :
  is_bounds name = false ->
  mem name (keys (coords (drop_all_bounds ds)))
    = mem name (keys (coords ds)).
Proof.
  intros E.
  rewrite drop_all_bounds_coords, (keys_filter (fun k => negb (is_bounds k))).
  destruct (mem name (keys (coords ds))) eqn:Em.
  - apply mem_In, filter_In. split; [now apply mem_In | now rewrite E].
  - apply mem_false. rewrite filter_In. intros [H _].
    apply mem_In in H. congruence.
Qed.

(** Dropping the bounds does not touch the latitude coordinate: the
    name found by [get_lat_name] and the global mean are those of the
    dataset as it was opened. *)
Theorem global_mean_after_drop_all_bounds (cosd : Q -> Q) (ds : Dataset) :
  get_lat_name (drop_all_bounds ds) = get_lat_name ds /\
  global_mean cosd (drop_all_bounds ds) = global_mean cosd ds.
Proof.
  assert (Hn : get_lat_name (drop_all_bounds ds) = get_lat_name ds).
  { unfold get_lat_name. cbn [find].
    now rewrite !mem_keys_drop by reflexivity. }
  split; [exact Hn|].
  unfold global_mean. rewrite Hn.
  destruct (get_lat_name_cases ds)
    as [[_ Hl] | [[_ [_ Hl]] | [_ [_ Hl]]]]; rewrite Hl; cbn [bind];
    [| |reflexivity].
  - unfold dict_getitem.
    rewrite drop_all_bounds_coords,
      (dict_get_filter (fun k => negb (is_bounds k))).
    reflexivity.
  - unfold dict_getitem.
    rewrite drop_all_bounds_coords,
      (dict_get_filter (fun k => negb (is_bounds k))).
    reflexivity.
Qed.

(** ** Opening the datasets *)

Lemma mapM_ok_map {A B} (f : A -> result B) (g : A -> B) (l : list A) :
  (forall a, In a l -> f a = Ok (g a)) -> mapM f l = Ok (map g l).
Proof.
  induction l as [|a l IH]; intros H; simpl; [reflexivity|].
  rewrite (H a (or_introl eq_refl)). simpl.
  rewrite IH by (intros b Hb; apply H; now right). reflexivity.
Qed.

Section Opening.
Variable merge : list Dataset -> result Dataset.

(** What [open_dsets] returns when it returns. *)
Definition to_option (df : list (result Dataset)) : option Dataset :=
  match Ecs.open_stores df with
  | Ok dsets => match merge dsets with Ok ds => Some ds | Raise _ => None end
  | Raise _ => None
  end.

(** Every store was opened, and the merge went through or raised the
    [ValueError] that [open_dsets] catches. *)
Definition caught (df : list (result Dataset)) : Prop :=
  match Ecs.open_stores df with
  | Ok dsets =>
      match merge dsets with
      | Ok _ | Raise (ValueError _) => True
      | Raise _ => False
      end
  | Raise _ => False
  end.

Definition opened (dsets : dict (dict (list (result Dataset))))
  : dict (dict (option Dataset)) :=
  map (fun kv => (fst kv, map (fun ed => (fst ed, to_option (snd ed)))
                              (snd kv)))
      dsets.

Lemma open_dsets_caught (df : list (result Dataset)) :
  (caught df -> Ecs.open_dsets merge df = Ok (to_option df)) /\
  (forall d, Ecs.open_dsets merge df = Ok d -> caught df).
Proof.
  unfold caught, to_option, Ecs.open_dsets.
  destruct (Ecs.open_stores df) as [dsets|e]; cbn [bind].
  - destruct (merge dsets) as [ds|[]]; split; try tauto; try discriminate;
      auto.
  - split; [tauto | discriminate].
Qed.

(** [open_dsets] catches the [ValueError] of the merge and nothing else.
    An exception raised while a store is opened, a [ValueError]
    included, is raised before [try] and leaves [open_dsets].  The
    datasets of a batch are all opened exactly when every store was
    opened and no merge raised another exception; then every model keeps
    its experiments, in order, and an experiment is [None] exactly where
    its merge raised [ValueError]. *)
Theorem open_all_catches_value_errors
        (dsets : dict (dict (list (result Dataset)))) :
  ((forall k v e df, In (k, v) dsets -> In (e, df) v -> caught df) ->
   Ecs.open_all merge dsets = Ok (opened dsets)) /\
  (forall dsets_, Ecs.open_all merge dsets = Ok dsets_ ->
     dsets_ = opened dsets /\
     forall k v e df, In (k, v) dsets -> In (e, df) v -> caught df) /\
  (forall df e, Ecs.open_stores df = Raise e ->
                Ecs.open_dsets merge df = Raise e) /\
  (forall df l msg, Ecs.open_stores df = Ok l ->
                    merge l = Raise (ValueError msg) ->
                    Ecs.open_dsets merge df = Ok None) /\
  (forall before after e,
     Ecs.open_stores (map Ok before ++ Raise e :: after) = Raise e).
Proof.
  assert (Hok : (forall k v e df, In (k, v) dsets -> In (e, df) v -> caught df) ->
                Ecs.open_all merge dsets = Ok (opened dsets)).
  { intros H. unfold Ecs.open_all, opened. apply mapM_ok_map.
    intros [k v] Hkv. cbn [fst snd].
    rewrite (mapM_ok_map _ (fun ed => (fst ed, to_option (snd ed)))).
    - reflexivity.
    - intros [e df] Hdf. cbn [fst snd].
      destruct (open_dsets_caught df) as [Hc _].
      rewrite Hc by (eapply H; eassumption). reflexivity. }
  split; [exact Hok|]. split; [|split; [|split]].
  - intros dsets_ Hrun.
    assert (Hc : forall k v e df, In (k, v) dsets -> In (e, df) v -> caught df).
    { intros k v e df Hkv Hdf. unfold Ecs.open_all in Hrun.
      destruct (mapM_In _ _ _ Hrun (k, v) Hkv) as [kv' [Hv _]].
      cbn [fst snd] in Hv.
      destruct (mapM _ v) as [v'|err] eqn:Ev; simpl in Hv; [|discriminate].
      destruct (mapM_In _ _ _ Ev (e, df) Hdf) as [ed' [He _]].
      cbn [fst snd] in He.
      destruct (Ecs.open_dsets merge df) as [d|err] eqn:Ed; simpl in He;
        [|discriminate].
      now apply (proj2 (open_dsets_caught df) d). }
    split; [|exact Hc].
    rewrite (Hok Hc) in Hrun. now injection Hrun.
  - intros df e H. unfold Ecs.open_dsets. now rewrite H.
  - intros df l msg H Hm. unfold Ecs.open_dsets. rewrite H. cbn [bind].
    now rewrite Hm.
  - intros before after e. unfold Ecs.open_stores.
    induction before as [|ds before IH]; [reflexivity|].
    simpl in *. now rewrite IH.
Qed.
End Opening.

Definition stores_timeout : dict (dict (list (result Dataset))) :=
  [("A"%string, [("piControl"%string, [Ok (ds_year 1850)]);
                 ("abrupt-2xCO2"%string, [Ok (ds_year 1)])])].

(** An exception of another class raised by the merge leaves
    [open_dsets] and ends the batch. *)
Example open_all_other_exception :
  Ecs.open_all (fun _ => Raise (RuntimeError "store not reachable"))
               stores_timeout
  = Raise (RuntimeError "store not reachable").
Proof. reflexivity. Qed.

(** A [ValueError] raised while a store is opened is not caught. *)
Example open_dsets_open_fails :
  Ecs.open_dsets merge_demo
                 [Ok (ds_year 1850); Raise (ValueError "not a zarr group")]
  = Raise (ValueError "not a zarr group").
Proof. reflexivity. Qed.

(** ** The models in the aligned output *)

Lemma keys_dict_set_new {V} (d : dict V) (k : string) (v : V) :
  ~ In k (keys d) -> keys (dict_set d k v) = keys d ++ [k].
Proof.
  induction d as [|[k' v'] d IH]; intros H; simpl; [reflexivity|].
  destruct (String.eqb_spec k' k) as [->|Hne].
  - exfalso. apply H. now left.
  - simpl. rewrite IH; [reflexivity|]. intros Hin. apply H. now right.
Qed.

(** A model all of whose datasets are there. *)
Definition complete (kv : string * dict (option Dataset)) : bool :=
  negb (Align.any_none (snd kv)).

Section AlignedModels.
Variable cosd : Q -> Q.
Variable year_coord : Dataset -> result (list Z).
Variable expts : list string.
Variable how : join.

Lemma align_model_complete (k : string) (v : dict (option Dataset))
      (r : option Frame * list string) :
  Align.align_model cosd year_coord expts how k v = Ok r ->
  Align.any_none v = false -> exists fr, fst r = Some fr.
Proof.
  unfold Align.align_model. intros H En. rewrite En in H.
  destruct (mapM (Align.add_year year_coord) v); simpl in H; [|discriminate].
  destruct (mapM _ expts); simpl in H; [|discriminate].
  destruct (concat how expts _) as [fr|]; simpl in H; [|discriminate].
  injection H as <-. now exists fr.
Qed.

Lemma align_loop_exact (items : list (string * dict (option Dataset)))
      (st st' : Align.loop_state) :
  Align.align_loop cosd year_coord expts how st items = Ok st' ->
  NoDup (keys (Align.dsets_aligned st) ++ keys items) ->
  keys (Align.dsets_aligned st')
    = keys (Align.dsets_aligned st) ++ keys (filter complete items) /\
  (forall k fr, dict_get (Align.dsets_aligned st') k = Some fr ->
     dict_get (Align.dsets_aligned st) k = Some fr \/
     (f_expts fr = expts /\ List.length (f_data fr) = List.length expts)).
Proof.
  revert st; induction items as [|[k v] items IH]; intros st Hrun Hnd.
  - injection Hrun as <-. cbn. rewrite app_nil_r. split; [reflexivity|].
    intros k fr H. now left.
  - cbn [Align.align_loop] in Hrun.
    destruct (Align.align_model cosd year_coord expts how k v)
      as [[fr out]|err] eqn:Em; simpl in Hrun; [|discriminate].
    assert (Hk : ~ In k (keys (Align.dsets_aligned st))).
    { intros Hin. apply NoDup_app_remove_r in Hnd as Hl.
      clear - Hnd Hin. induction (keys (Align.dsets_aligned st)) as [|x l IHl];
        [destruct Hin|].
      simpl in Hnd. inversion Hnd as [|? ? Hx Hrest]; subst.
      destruct Hin as [->|Hin]; [|now apply IHl].
      apply Hx. apply in_or_app. right. now left. }
    destruct (Align.any_none v) eqn:En.
    + rewrite (align_model_skip cosd year_coord expts how k v En) in Em.
      injection Em as <- <-. cbn [fst snd] in Hrun.
      destruct (IH _ Hrun) as [Hkeys Hfr].
      { cbn [Align.dsets_aligned]. cbn [keys map fst] in Hnd.
        now apply NoDup_remove_1 in Hnd. }
      cbn [Align.dsets_aligned] in Hkeys, Hfr.
      split; [|exact Hfr].
      rewrite Hkeys. cbn [filter]. unfold complete at 2. cbn [snd].
      now rewrite En.
    + destruct (align_model_complete k v (fr, out) Em En) as [fr' Hfr'].
      cbn [fst] in Hfr'. subst fr. cbn [fst snd] in Hrun.
      destruct (align_model_frame cosd year_coord expts how k v fr' out Em)
        as (_ & _ & Hex & Hlen & _).
      destruct (IH _ Hrun) as [Hkeys Hfr].
      { cbn [Align.dsets_aligned]. rewrite keys_dict_set_new by assumption.
        rewrite <- app_assoc. exact Hnd. }
      cbn [Align.dsets_aligned] in Hkeys, Hfr.
      split.
      * rewrite Hkeys, keys_dict_set_new by assumption.
        cbn [filter]. unfold complete at 2. cbn [snd]. rewrite En.
        cbn [negb keys map fst]. now rewrite <- app_assoc.
      * intros k0 fr0 H0. destruct (Hfr k0 fr0 H0) as [H1|H1]; [|now right].
        rewrite dict_get_dict_set in H1.
        destruct (String.eqb k k0); [|now left].
        injection H1 as <-. right. now split.
Qed.

(** When the alignment loop ends, [dsets_aligned] holds the models all
    of whose datasets were opened, in the order of [dsets_], and no
    others; the frame of each has a row for every experiment of
    [expts]. *)
Theorem align_keeps_the_complete_models
        (dsets_ : dict (dict (option Dataset))) (st : Align.loop_state) :
  NoDup (keys dsets_) ->
  Align.align_all cosd year_coord expts how dsets_ = Ok st ->
  keys (Align.dsets_aligned st) = keys (filter complete dsets_) /\
  (forall k fr, dict_get (Align.dsets_aligned st) k = Some fr ->
     f_expts fr = expts /\ List.length (f_data fr) = List.length expts).
Proof.
  intros Hnd Hrun. unfold Align.align_all in Hrun.
  destruct (align_loop_exact dsets_ _ st Hrun) as [Hkeys Hfr].
  - exact Hnd.
  - split; [exact Hkeys|].
    intros k fr H. destruct (Hfr k fr H) as [H1|H1]; [discriminate H1|].
    exact H1.
Qed.

End AlignedModels.

Lemma align_keeps_the_complete_models_demo :
  keys (Align.dsets_aligned aligned_demo) = ["A"%string; "C"%string].
Proof.
  exact (proj1 (align_keeps_the_complete_models
                  cosd_demo Ecs.year_coord Ecs.expts JoinRight
                  dsets_demo aligned_demo keys_demo align_all_demo)).
Defined.

(** ** [get_tcr] *)

(** The months that enter the mean of [get_tcr]: the positions 708 to
    959 of a series. *)
Definition tcr_months (series : list Q) : list Q :=
  firstn 252 (skipn 708 series).

Lemma tcr_mean_finite (series : list Q) :
  (960 <= List.length series)%nat ->
  exists q, Ohu.tcr_mean (map Fin series) = Fin q /\
            q == sumQ (tcr_months series) / 252.
Proof.
  intros Hlen. unfold Ohu.tcr_mean, Ohu.isel_slice.
  replace (12 * 80 - 12 * 59)%nat with 252%nat by lia.
  replace (12 * 59)%nat with 708%nat by lia.
  rewrite skipn_map, firstn_map. fold (tcr_months series).
  assert (Hl : List.length (tcr_months series) = 252%nat).
  { unfold tcr_months. rewrite length_firstn, length_skipn. lia. }
  destruct (nanmean_finite_length (tcr_months series)) as [q [Hq Hv]];
    [lia|].
  exists q. split; [exact Hq|]. rewrite Hv, Hl. reflexivity.
Qed.

Lemma tcr_mean_short (series : list float) :
  (List.length series <= 708)%nat -> Ohu.tcr_mean series = NaN.
Proof.
  intros Hlen. unfold Ohu.tcr_mean, Ohu.isel_slice.
  replace (12 * 59)%nat with 708%nat by lia.
  rewrite skipn_all2 by assumption. rewrite firstn_nil. reflexivity.
Qed.

Lemma time_size_long (ds : list (list Q)) :
  (forall s, In s ds -> (960 <= List.length s)%nat) ->
  Nat.eqb (Ohu.time_size (map (map Fin) ds)) 1 = false.
Proof.
  intros H. apply Nat.eqb_neq. destruct ds as [|s ds]; [discriminate|].
  cbn [map Ohu.time_size]. rewrite length_map.
  specialize (H s (or_introl eq_refl)). lia.
Qed.

Lemma fsub_nan (v : float) : fsub NaN v = NaN.
Proof. now destruct v. Qed.

(** [get_tcr] looks up the experiment key first: a key that is missing
    raises [KeyError].  For two datasets of one grid, finite and at least
    960 months long, the value of each cell is the mean of the months 708
    to 959 of the experiment (252 months, 21 years) minus the mean of the
    same months of the control run.  An experiment of 708 months or
    fewer, but not of one month, has no month in this range and every
    cell comes out as NaN.  A dataset of one month loses its dimension
    [time] to [squeeze] and [isel] raises [ValueError]. *)
Theorem get_tcr_window (dset_dict : dict Ohu.hfds) (ctrl_key expr_key : string) :
  (dict_get dset_dict expr_key = None ->
   Ohu.get_tcr dset_dict ctrl_key expr_key = Raise (KeyError expr_key)) /\
  (dict_get dset_dict expr_key <> None -> dict_get dset_dict ctrl_key = None ->
   Ohu.get_tcr dset_dict ctrl_key expr_key = Raise (KeyError ctrl_key)) /\
  (forall e c : list (list Q),
     dict_get dset_dict expr_key = Some (map (map Fin) e) ->
     dict_get dset_dict ctrl_key = Some (map (map Fin) c) ->
     List.length e = List.length c ->
     (forall s, In s e \/ In s c -> (960 <= List.length s)%nat) ->
     exists r, Ohu.get_tcr dset_dict ctrl_key expr_key = Ok r /\
       List.length r = List.length e /\
       forall j es cs, nth_error e j = Some es -> nth_error c j = Some cs ->
         exists q, nth_error r j = Some (Fin q) /\
                   q == sumQ (tcr_months es) / 252
                        - sumQ (tcr_months cs) / 252) /\
  (forall e c : Ohu.hfds,
     dict_get dset_dict expr_key = Some e ->
     dict_get dset_dict ctrl_key = Some c ->
     List.length e = List.length c ->
     Ohu.time_size e <> 1%nat -> Ohu.time_size c <> 1%nat ->
     (forall s, In s e -> (List.length s <= 708)%nat) ->
     exists r, Ohu.get_tcr dset_dict ctrl_key expr_key = Ok r /\
       List.length r = List.length e /\
       forall v, In v r -> v = NaN) /\
  (forall e c : Ohu.hfds,
     dict_get dset_dict expr_key = Some e ->
     dict_get dset_dict ctrl_key = Some c ->
     Ohu.time_size e = 1%nat \/ Ohu.time_size c = 1%nat ->
     exists msg,
       Ohu.get_tcr dset_dict ctrl_key expr_key = Raise (ValueError msg)).
Proof.
  split; [|split; [|split; [|split]]].
  - intros H. unfold Ohu.get_tcr, dict_getitem. now rewrite H.
  - intros He Hc. unfold Ohu.get_tcr, dict_getitem.
    destruct (dict_get dset_dict expr_key); [|congruence].
    now rewrite Hc.
  - intros e c He Hc Hlen Hlong.
    unfold Ohu.get_tcr, dict_getitem, Ohu.window_mean.
    rewrite He, Hc. cbn [bind].
    rewrite (time_size_long e) by (intros s Hs; apply Hlong; now left).
    rewrite (time_size_long c) by (intros s Hs; apply Hlong; now right).
    cbn [bind].
    eexists. split; [reflexivity|]. split.
    + rewrite length_map.
      clear - Hlen. revert c Hlen.
      induction e as [|x e IH]; intros [|y c] Hlen; simpl in *;
        try discriminate; [reflexivity|].
      f_equal. apply IH. now injection Hlen.
    + intros j. clear He Hc. revert c Hlen Hlong j.
      induction e as [|x e IH]; intros [|y c] Hlen Hlong j es cs Hes Hcs;
        try discriminate Hlen.
      * destruct j; discriminate Hes.
      * destruct j as [|j]; cbn [nth_error map zip] in *.
        -- injection Hes as <-. injection Hcs as <-.
           destruct (tcr_mean_finite x) as [qe [Hqe Hve]];
             [apply Hlong; left; now left|].
           destruct (tcr_mean_finite y) as [qc [Hqc Hvc]];
             [apply Hlong; right; now left|].
           cbn [fst snd]. rewrite Hqe, Hqc. cbn [fsub fneg fadd].
           eexists. split; [reflexivity|]. rewrite Hve, Hvc. ring.
        -- apply (IH c); try assumption.
           ++ now injection Hlen.
           ++ intros s [Hs|Hs]; apply Hlong; [left | right]; now right.
  - intros e c He Hc Hlen Hte Htc Hshort.
    unfold Ohu.get_tcr, dict_getitem, Ohu.window_mean.
    rewrite He, Hc. cbn [bind].
    apply Nat.eqb_neq in Hte, Htc. rewrite Hte, Htc. cbn [bind].
    eexists. split; [reflexivity|].
    clear He Hc Hte Htc. revert c Hlen.
    induction e as [|x e IH]; intros [|y c] Hlen; try discriminate Hlen.
    + split; [reflexivity | intros v []].
    + destruct (IH (fun s Hs => Hshort s (or_intror Hs)) c) as [Hl Hv];
        [now injection Hlen|].
      cbn [map zip List.length fst snd]. split; [now rewrite Hl|].
      intros v [<-|Hin]; [|now apply Hv].
      rewrite (tcr_mean_short x) by (apply Hshort; now left).
      apply fsub_nan.
  - intros e c He Hc Hone.
    unfold Ohu.get_tcr, dict_getitem, Ohu.window_mean.
    rewrite He, Hc. cbn [bind].
    destruct (Nat.eqb (Ohu.time_size e) 1) eqn:Ee; cbn [bind];
      [eexists; reflexivity|].
    destruct Hone as [H|H]; [apply Nat.eqb_neq in Ee; contradiction|].
    rewrite H. cbn [Nat.eqb bind]. eexists; reflexivity.
Qed.

(** One month in the control run: [ValueError], no NaN. *)
Example get_tcr_one_month :
  exists msg,
    Ohu.get_tcr [("c"%string, [[Fin 1]]); ("e"%string, [[Fin 1; Fin 2]])]
                "c" "e"
    = Raise (ValueError msg).
Proof. eexists. reflexivity. Qed.

(** ** Taking models out of the two key lists *)

(** The list without its element at position [j]. *)
Definition remove_at {A} (j : nat) (l : list A) : list A :=
  firstn j l ++ skipn (S j) l.

Lemma pop_in_range {A} (l : list A) (i : Z) (j : nat) :
  (if (i <? 0)%Z then (i + Z.of_nat (List.length l))%Z else i) = Z.of_nat j ->
  (j < List.length l)%nat ->
  exists a, nth_error l j = Some a /\ pop l i = Ok (a, remove_at j l).
Proof.
  intros Hj Hlt. unfold pop.
  destruct l as [|x l']; [simpl in Hlt; lia|].
  set (l := x :: l') in *. rewrite Hj.
  replace ((Z.of_nat j <? 0) || (Z.of_nat (List.length l) <=? Z.of_nat j))%Z
    with false
    by (symmetry; apply orb_false_iff; split;
        [apply Z.ltb_ge | apply Z.leb_gt]; lia).
  rewrite Nat2Z.id.
  destruct (nth_error l j) as [a|] eqn:E.
  - exists a. split; reflexivity.
  - apply nth_error_None in E. lia.
Qed.

Lemma pop_out_of_range {A} (l : list A) (i : Z) :
  let j := if (i <? 0)%Z then (i + Z.of_nat (List.length l))%Z else i in
  l <> [] -> (j < 0 \/ Z.of_nat (List.length l) <= j)%Z ->
  pop l i = Raise (IndexError "pop index out of range").
Proof.
  intros j Hne H. unfold pop.
  destruct l as [|x l']; [congruence|].
  set (l := x :: l') in *. fold j.
  replace ((j <? 0) || (Z.of_nat (List.length l) <=? j))%Z with true;
    [reflexivity|].
  symmetry. apply orb_true_iff.
  destruct H; [left; now apply Z.ltb_lt | right; now apply Z.leb_le].
Qed.

Lemma zip_app {A B} (a a' : list A) (b b' : list B) :
  List.length a = List.length b ->
  zip (a ++ a') (b ++ b') = zip a b ++ zip a' b'.
Proof.
  revert b; induction a as [|x a IH]; intros [|y b] H; simpl in *;
    try discriminate; [reflexivity|].
  f_equal. apply IH. now injection H.
Qed.

Lemma zip_firstn {A B} (n : nat) (a : list A) (b : list B) :
  zip (firstn n a) (firstn n b) = firstn n (zip a b).
Proof.
  revert a b; induction n as [|n IH]; intros [|x a] [|y b]; simpl;
    try reflexivity.
  now rewrite IH.
Qed.

Lemma zip_skipn {A B} (n : nat) (a : list A) (b : list B) :
  List.length a = List.length b ->
  zip (skipn n a) (skipn n b) = skipn n (zip a b).
Proof.
  revert a b; induction n as [|n IH]; intros [|x a] [|y b] H; simpl in *;
    try discriminate; try reflexivity.
  apply IH. now injection H.
Qed.

Lemma zip_remove_at {A B} (j : nat) (a : list A) (b : list B) :
  List.length a = List.length b ->
  zip (remove_at j a) (remove_at j b) = remove_at j (zip a b).
Proof.
  intros H. unfold remove_at.
  rewrite zip_app, zip_firstn, zip_skipn; try assumption; try reflexivity.
  rewrite !length_firstn. now rewrite H.
Qed.

Lemma length_remove_at {A} (j : nat) (l : list A) :
  (j < List.length l)%nat -> List.length (remove_at j l) = pred (List.length l).
Proof.
  intros H. unfold remove_at.
  rewrite length_app, length_firstn, length_skipn. lia.
Qed.

Lemma remove_at_incl {A} (j : nat) (l : list A) (x : A) :
  In x (remove_at j l) -> In x l.
Proof.
  unfold remove_at. intros H. apply in_app_or in H.
  rewrite <- (firstn_skipn j l). apply in_or_app.
  destruct H as [H|H]; [now left | right].
  rewrite <- (firstn_skipn 1 (skipn j l)). apply in_or_app. right.
  now rewrite skipn_skipn.
Qed.

(** The two [pop] calls on each list take out the same positions of
    both, so that the pairs left are pairs of before: with lists of equal
    length of three keys or more, the lists left are two keys shorter and
    pair up as the lists before did, without the pair at the third
    position from the end and then the pair at position 1.  With one or
    two keys the first [pop] raises [IndexError] for its index, with no
    key at all for the empty list. *)
Theorem pop_models_keeps_pairs (ctrl_keys expr_keys : list string) :
  List.length ctrl_keys = List.length expr_keys ->
  ((3 <= List.length ctrl_keys)%nat ->
   exists c e, Ohu.pop_models ctrl_keys expr_keys = Ok (c, e) /\
     List.length c = (List.length ctrl_keys - 2)%nat /\
     List.length e = (List.length ctrl_keys - 2)%nat /\
     zip c e = remove_at 1 (remove_at (List.length ctrl_keys - 3)
                                      (zip ctrl_keys expr_keys)) /\
     forall kk, In kk (zip c e) -> In kk (zip ctrl_keys expr_keys)) /\
  ((1 <= List.length ctrl_keys < 3)%nat ->
   Ohu.pop_models ctrl_keys expr_keys
     = Raise (IndexError "pop index out of range")) /\
  (ctrl_keys = [] ->
   Ohu.pop_models ctrl_keys expr_keys
     = Raise (IndexError "pop from empty list")).
Proof.
  intros Hlen. split.
  - intros Hn. unfold Ohu.pop_models.
    set (n := List.length ctrl_keys) in *.
    destruct (pop_in_range ctrl_keys (-3) (n - 3)) as [a [_ Ha]];
      [cbn [Z.ltb Z.compare]; fold n; lia | fold n; lia |].
    destruct (pop_in_range expr_keys (-3) (n - 3)) as [b [_ Hb]];
      [cbn [Z.ltb Z.compare]; rewrite <- Hlen; fold n; lia
      | rewrite <- Hlen; fold n; lia |].
    rewrite Ha, Hb. cbn [bind snd].
    assert (Hc1 : List.length (remove_at (n - 3) ctrl_keys) = pred n)
      by (apply length_remove_at; fold n; lia).
    assert (He1 : List.length (remove_at (n - 3) expr_keys) = pred n)
      by (rewrite length_remove_at; rewrite <- Hlen; fold n; lia).
    destruct (pop_in_range (remove_at (n - 3) ctrl_keys) 1 1) as [a' [_ Ha']];
      [reflexivity | lia |].
    destruct (pop_in_range (remove_at (n - 3) expr_keys) 1 1) as [b' [_ Hb']];
      [reflexivity | lia |].
    rewrite Ha', Hb'. cbn [bind snd].
    eexists. eexists. split; [reflexivity|].
    split; [rewrite length_remove_at; lia|].
    split; [rewrite length_remove_at; lia|].
    assert (Hz : zip (remove_at 1 (remove_at (n - 3) ctrl_keys))
                     (remove_at 1 (remove_at (n - 3) expr_keys))
                 = remove_at 1 (remove_at (n - 3) (zip ctrl_keys expr_keys))).
    { rewrite zip_remove_at by lia. now rewrite zip_remove_at. }
    split; [exact Hz|].
    intros kk Hkk. rewrite Hz in Hkk.
    now apply remove_at_incl, remove_at_incl in Hkk.
  - split.
    + intros Hn. unfold Ohu.pop_models.
      rewrite (pop_out_of_range ctrl_keys (-3)); [reflexivity | |].
      * intros ->. simpl in Hn. lia.
      * left. cbn [Z.ltb Z.compare]. lia.
    + intros ->. reflexivity.
Qed.

Lemma pop_models_keeps_pairs_demo :
  exists c e,
    Ohu.pop_models ctrl_keys_demo expr_keys_demo = Ok (c, e) /\
    zip c e = [("CMIP.NCAR.CESM2-FV2.piControl.Omon.gn"%string,
                "CMIP.NCAR.CESM2-FV2.1pctCO2.Omon.gn"%string)].
Proof.
  destruct (pop_models_keeps_pairs ctrl_keys_demo expr_keys_demo eq_refl)
    as [H _].
  destruct (H (le_n 3)) as [c [e (Hrun & _ & _ & Hz & _)]].
  exists c, e. split; [exact Hrun|]. rewrite Hz. reflexivity.
Defined.

(** ** The model field of a key and the end of the batch *)

Fixpoint count_char (c : ascii) (s : string) : nat :=
  match s with
  | EmptyString => O
  | String c' s' =>
      if Ascii.eqb c' c then S (count_char c s') else count_char c s'
  end.

Lemma length_split_aux (sep : ascii) (cur s : string) :
  List.length (split_aux sep cur s) = S (count_char sep s).
Proof.
  revert cur; induction s as [|c s IH]; intros cur; simpl; [reflexivity|].
  destruct (Ascii.eqb c sep); simpl; now rewrite IH.
Qed.

Lemma append_empty (s : string) : (s ++ "")%string = s.
Proof.
  induction s as [|c s IH]; simpl; [reflexivity | now rewrite IH].
Qed.

Lemma append_char (s f : string) (c : ascii) :
  ((s ++ String c EmptyString) ++ f)%string = (s ++ String c f)%string.
Proof.
  induction s as [|c' s IH]; simpl; [reflexivity | now rewrite IH].
Qed.

Lemma split_aux_field (sep : ascii) (cur f rest : string) :
  count_char sep f = O ->
  split_aux sep cur (f ++ String sep rest)
    = (cur ++ f)%string :: split_aux sep EmptyString rest.
Proof.
  revert cur; induction f as [|c f IH]; intros cur Hf; simpl.
  - now rewrite Ascii.eqb_refl, append_empty.
  - simpl in Hf. destruct (Ascii.eqb c sep); [discriminate|].
    now rewrite (IH _ Hf), append_char.
Qed.

Lemma split_aux_last (sep : ascii) (cur f : string) :
  count_char sep f = O -> split_aux sep cur f = [(cur ++ f)%string].
Proof.
  revert cur; induction f as [|c f IH]; intros cur Hf; simpl.
  - now rewrite append_empty.
  - simpl in Hf. destruct (Ascii.eqb c sep); [discriminate|].
    now rewrite (IH _ Hf), append_char.
Qed.

Lemma model_of_dots (ctrl_key : string) :
  ((2 <= count_char "." ctrl_key)%nat ->
   exists model, model_of ctrl_key = Ok model) /\
  ((count_char "." ctrl_key < 2)%nat ->
   model_of ctrl_key = Raise (IndexError "list index out of range")).
Proof.
  unfold model_of, getitem, split.
  pose proof (length_split_aux "." EmptyString ctrl_key) as Hl.
  destruct (nth_error (split_aux "." EmptyString ctrl_key) 2) as [m|] eqn:E.
  - split; [eauto|]. intros H.
    assert (2 < List.length (split_aux "." EmptyString ctrl_key))%nat
      by (apply nth_error_Some; congruence).
    lia.
  - split; [|reflexivity]. intros H. apply nth_error_None in E. lia.
Qed.

(** [ctrl_key.split('.')[2]] is the third field of the key: for a key
    [a.b.m] or [a.b.m.rest], whose first three fields hold no dot, the
    name under which the batch loop files the model is [m]. *)
Theorem model_of_third_field (a b m rest : string) :
  count_char "." a = O -> count_char "." b = O -> count_char "." m = O ->
  model_of (a ++ "." ++ b ++ "." ++ m ++ "." ++ rest) = Ok m /\
  model_of (a ++ "." ++ b ++ "." ++ m) = Ok m.
Proof.
  intros Ha Hb Hm. unfold model_of, split. cbn [String.append]. split.
  - rewrite (split_aux_field "." EmptyString a _ Ha).
    rewrite (split_aux_field "." EmptyString b _ Hb).
    rewrite (split_aux_field "." EmptyString m _ Hm).
    reflexivity.
  - rewrite (split_aux_field "." EmptyString a _ Ha).
    rewrite (split_aux_field "." EmptyString b _ Hb).
    rewrite (split_aux_last "." EmptyString m Hm).
    reflexivity.
Qed.

Lemma model_of_third_field_demo :
  model_of "CMIP.NCAR.CESM2.piControl.Omon.gn" = Ok "CESM2"%string.
Proof.
  exact (proj1 (model_of_third_field "CMIP" "NCAR" "CESM2" "piControl.Omon.gn"
                  eq_refl eq_refl eq_refl)).
Defined.

Lemma length_zip {A B} (a : list A) (b : list B) :
  List.length (zip a b) = Nat.min (List.length a) (List.length b).
Proof.
  revert b; induction a as [|x a IH]; intros [|y b]; simpl;
    try reflexivity.
  now rewrite IH.
Qed.

Section BatchEnd.
Variable V : Type.
Variable body : string -> string -> string + V.

Lemma batch_step_ok (st : Ohu.batch_state V) (kk : string * string)
      (model : string) :
  model_of (fst kk) = Ok model ->
  exists st', Ohu.batch_step body st kk = Ok st'.
Proof.
  destruct kk as [ck ek]. intros Hm. unfold Ohu.batch_step.
  fold (model_of ck). cbn [fst] in Hm. rewrite Hm. cbn [bind].
  destruct (body ck ek); eauto.
Qed.

Lemma batch_loop_raises (kks : list (string * string))
      (st : Ohu.batch_state V) :
  (exists kk, In kk kks /\ (count_char "." (fst kk) < 2)%nat) ->
  Ohu.batch_loop body st kks
    = Raise (IndexError "list index out of range").
Proof.
  revert st; induction kks as [|kk kks IH]; intros st [bad [Hin Hbad]];
    [destruct Hin|].
  cbn [Ohu.batch_loop].
  destruct (Nat.lt_ge_cases (count_char "." (fst kk)) 2) as [Hlt|Hge].
  - destruct kk as [ck ek]. unfold Ohu.batch_step. fold (model_of ck).
    rewrite (proj2 (model_of_dots ck) Hlt). reflexivity.
  - destruct (proj1 (model_of_dots (fst kk)) Hge) as [model Hm].
    destruct (batch_step_ok st kk model Hm) as [st' Hst].
    rewrite Hst. cbn [bind]. apply IH.
    destruct Hin as [<-|Hin]; [lia|]. eauto.
Qed.

(** The batch ends with its summary exactly when every control key that
    is paired with an experiment key has two dots or more, the model
    being the third field; a key with fewer dots raises [IndexError]
    before [try], and nothing is returned.  The keys paired are as many
    as the shorter of the two lists has: the keys of the longer list
    beyond that are not attempted and not counted. *)
Theorem regrid_batch_ends (ctrl_keys expr_keys : list string) :
  ((forall kk, In kk (zip ctrl_keys expr_keys) ->
               (2 <= count_char "." (fst kk))%nat) <->
   exists st, Ohu.regrid_batch body ctrl_keys expr_keys = Ok st) /\
  ((exists kk, In kk (zip ctrl_keys expr_keys) /\
               (count_char "." (fst kk) < 2)%nat) ->
   Ohu.regrid_batch body ctrl_keys expr_keys
     = Raise (IndexError "list index out of range")) /\
  (forall st, Ohu.regrid_batch body ctrl_keys expr_keys = Ok st ->
     Ohu.model_count st
       = Nat.min (List.length ctrl_keys) (List.length expr_keys)).
Proof.
  assert (Hraise : (exists kk, In kk (zip ctrl_keys expr_keys) /\
                               (count_char "." (fst kk) < 2)%nat) ->
                   Ohu.regrid_batch body ctrl_keys expr_keys
                     = Raise (IndexError "list index out of range")).
  { intros H. unfold Ohu.regrid_batch.
    now rewrite (batch_loop_raises _ Ohu.batch_init H). }
  assert (Hok : (forall kk, In kk (zip ctrl_keys expr_keys) ->
                            (2 <= count_char "." (fst kk))%nat) ->
                exists st, Ohu.regrid_batch body ctrl_keys expr_keys = Ok st /\
                  Ohu.model_count st = List.length (zip ctrl_keys expr_keys)).
  { intros H.
    destruct (batch_loop_ok V body (zip ctrl_keys expr_keys) Ohu.batch_init)
      as [st (Hrun & Hmc & _)].
    - intros kk Hkk. apply model_of_dots. now apply H.
    - unfold Ohu.regrid_batch. rewrite Hrun. cbn [bind].
      eexists. split; [reflexivity|]. exact Hmc. }
  assert (Hall : forall st, Ohu.regrid_batch body ctrl_keys expr_keys = Ok st ->
                 forall kk, In kk (zip ctrl_keys expr_keys) ->
                            (2 <= count_char "." (fst kk))%nat).
  { intros st Hrun kk Hkk.
    destruct (Nat.lt_ge_cases (count_char "." (fst kk)) 2) as [Hlt|Hge];
      [|exact Hge].
    rewrite Hraise in Hrun by eauto. discriminate Hrun. }
  split; [|split].
  - split.
    + intros H. destruct (Hok H) as [st [Hrun _]]. eauto.
    + intros [st Hrun]. exact (Hall st Hrun).
  - exact Hraise.
  - intros st Hrun. destruct (Hok (Hall st Hrun)) as [st' [Hrun' Hmc]].
    rewrite Hrun in Hrun'. injection Hrun' as <-.
    now rewrite Hmc, length_zip.
Qed.

End BatchEnd.

(** The third model of these keys has no model field. *)
Example regrid_batch_short_key :
  Ohu.regrid_batch body_demo
    ["CMIP.CCCma.CanESM5.piControl.Omon.gn"%string; "CESM2"%string]
    ["CMIP.CCCma.CanESM5.1pctCO2.Omon.gn"%string; "CESM2"%string]
  = Raise (IndexError "list index out of range").
Proof. reflexivity. Qed.

(** ** The dictionary of regridded models *)

Lemma length_dict_set {V} (d : dict V) (k : string) (v : V) :
  (In k (keys d) -> List.length (dict_set d k v) = List.length d) /\
  (~ In k (keys d) -> List.length (dict_set d k v) = S (List.length d)).
Proof.
  induction d as [|[k' v'] d [IH1 IH2]]; simpl.
  - split; [intros [] | reflexivity].
  - destruct (String.eqb_spec k' k) as [->|Hne]; simpl.
    + split; [reflexivity | intros H; exfalso; apply H; now left].
    + split.
      * intros [H|H]; [congruence | now rewrite IH1].
      * intros H. rewrite IH2; [reflexivity | tauto].
Qed.

Lemma NoDup_keys_dict_set {V} (d : dict V) (k : string) (v : V) :
  NoDup (keys d) -> NoDup (keys (dict_set d k v)).
Proof.
  intros H. destruct (in_dec string_dec k (keys d)) as [Hin|Hnin].
  - replace (keys (dict_set d k v)) with (keys d); [exact H|].
    clear H. induction d as [|[k' v'] d IH]; [destruct Hin|]. simpl.
    destruct (String.eqb_spec k' k) as [->|Hne]; [reflexivity|].
    simpl. f_equal. apply IH. simpl in Hin.
    destruct Hin as [Hin|Hin]; [congruence|exact Hin].
  - rewrite keys_dict_set_new by assumption.
    apply NoDup_app; [exact H | repeat constructor; intros [] | ].
    intros x Hx [<-|[]]. contradiction.
Qed.

Section BatchDict.
Variable V : Type.
Variable body : string -> string -> string + V.

(** The model names of the pairs that were regridded, in order. *)
Definition regridded (kks : list (string * string)) : list string :=
  map (fun kk => match model_of (fst kk) with
                 | Ok model => model
                 | Raise _ => EmptyString
                 end)
      (filter (succeeded body) kks).

Lemma regridded_cons (kk : string * string) (kks : list (string * string)) :
  regridded (kk :: kks)
    = match body (fst kk) (snd kk), model_of (fst kk) with
      | inl _, _ => regridded kks
      | inr _, Ok model => model :: regridded kks
      | inr _, Raise _ => EmptyString :: regridded kks
      end.
Proof.
  unfold regridded. cbn [filter]. unfold succeeded at 1.
  destruct (body (fst kk) (snd kk)); [reflexivity|].
  cbn [map]. now destruct (model_of (fst kk)).
Qed.

Lemma batch_loop_dict (kks : list (string * string))
      (st st' : Ohu.batch_state V) :
  Ohu.batch_loop body st kks = Ok st' ->
  NoDup (keys (Ohu.ds_regrid_dict st)) ->
  NoDup (keys (Ohu.ds_regrid_dict st')) /\
  (List.length (Ohu.ds_regrid_dict st')
   <= List.length (Ohu.ds_regrid_dict st) + List.length (regridded kks))%nat /\
  (NoDup (keys (Ohu.ds_regrid_dict st) ++ regridded kks) ->
   keys (Ohu.ds_regrid_dict st')
     = keys (Ohu.ds_regrid_dict st) ++ regridded kks /\
   forall kk ds model, In kk kks -> model_of (fst kk) = Ok model ->
     body (fst kk) (snd kk) = inr ds ->
     dict_get (Ohu.ds_regrid_dict st') model = Some ds).
Proof.
  revert st; induction kks as [|[ck ek] kks IH]; intros st Hrun Hnd.
  - injection Hrun as <-. unfold regridded. cbn. rewrite app_nil_r.
    split; [exact Hnd|]. split; [lia|]. intros _.
    split; [reflexivity | intros kk ds model []].
  - cbn [Ohu.batch_loop] in Hrun. unfold Ohu.batch_step in Hrun.
    fold (model_of ck) in Hrun.
    destruct (model_of ck) as [model|err] eqn:Em; cbn [bind] in Hrun;
      [|discriminate].
    rewrite regridded_cons. cbn [fst snd]. rewrite Em.
    destruct (body ck ek) as [e|ds] eqn:Eb; cbn [bind] in Hrun.
    + destruct (IH _ Hrun) as (H1 & H2 & H3); [exact Hnd|].
      cbn [Ohu.ds_regrid_dict] in H1, H2, H3.
      split; [exact H1|]. split; [exact H2|].
      intros Hnd'. destruct (H3 Hnd') as [Hk Hv]. split; [exact Hk|].
      intros kk ds0 model0 [<-|Hin] Hm0 Hb0; [|eauto].
      cbn [fst snd] in Hb0. congruence.
    + destruct (IH _ Hrun) as (H1 & H2 & H3).
      { cbn [Ohu.ds_regrid_dict]. now apply NoDup_keys_dict_set. }
      cbn [Ohu.ds_regrid_dict] in H1, H2, H3.
      split; [exact H1|]. split.
      * destruct (length_dict_set (Ohu.ds_regrid_dict st) model ds) as [L1 L2].
        destruct (in_dec string_dec model (keys (Ohu.ds_regrid_dict st)));
          [rewrite L1 in H2 by assumption | rewrite L2 in H2 by assumption];
          cbn [List.length]; lia.
      * intros Hnd'.
        assert (Hnew : ~ In model (keys (Ohu.ds_regrid_dict st))).
        { intros Hin. clear - Hnd' Hin.
          induction (keys (Ohu.ds_regrid_dict st)) as [|x l IHl];
            [destruct Hin|].
          simpl in Hnd'. inversion Hnd' as [|? ? Hx Hrest]; subst.
          destruct Hin as [->|Hin]; [|now apply IHl].
          apply Hx. apply in_or_app. right. now left. }
        rewrite keys_dict_set_new in H3 by assumption.
        rewrite <- app_assoc in H3. destruct (H3 Hnd') as [Hk Hv].
        split; [exact Hk|].
        intros kk ds0 model0 [<-|Hin] Hm0 Hb0; [|eauto].
        cbn [fst snd] in Hm0, Hb0.
        assert (model0 = model) by congruence. subst model0.
        assert (ds0 = ds) by congruence. subst ds0.
        clear - Hrun Hnd' Hnew Hk.
        assert (Hlater : ~ In model (regridded kks)).
        { intros Hin. apply NoDup_remove_2 in Hnd'. apply Hnd'.
          apply in_or_app. now right. }
        assert (Hgen : forall kks0 (s s' : Ohu.batch_state V),
                   Ohu.batch_loop body s kks0 = Ok s' ->
                   ~ In model (regridded kks0) ->
                   dict_get (Ohu.ds_regrid_dict s') model
                     = dict_get (Ohu.ds_regrid_dict s) model).
        { clear. induction kks0 as [|[c0 e0] kks0 IH0]; intros s s' Hr Hn.
          - now injection Hr as <-.
          - cbn [Ohu.batch_loop] in Hr. unfold Ohu.batch_step in Hr.
            fold (model_of c0) in Hr.
            destruct (model_of c0) as [m0|] eqn:Em0; cbn [bind] in Hr;
              [|discriminate].
            rewrite regridded_cons in Hn. cbn [fst snd] in Hn.
            rewrite Em0 in Hn.
            destruct (body c0 e0) as [e1|d1] eqn:Eb0.
            + rewrite (IH0 _ _ Hr Hn). reflexivity.
            + rewrite (IH0 _ _ Hr) by (intros H; apply Hn; now right).
              cbn [Ohu.ds_regrid_dict]. rewrite dict_get_dict_set.
              destruct (String.eqb_spec m0 model) as [->|]; [|reflexivity].
              exfalso. apply Hn. now left. }
        rewrite (Hgen _ _ _ Hrun Hlater). cbn [Ohu.ds_regrid_dict].
        rewrite dict_get_dict_set. now rewrite String.eqb_refl.
Qed.

(** The dictionary has one entry for every model name that was
    regridded, so never more entries than [success_count] counts.  When
    the names of the regridded models are all different, the keys of the
    dictionary are these names in the order of the batch, their number is
    [success_count], and each name gives the field regridded for it. *)
Theorem regridded_models_in_dict (ctrl_keys expr_keys : list string)
        (st : Ohu.batch_state V) :
  Ohu.regrid_batch body ctrl_keys expr_keys = Ok st ->
  NoDup (keys (Ohu.ds_regrid_dict st)) /\
  (List.length (Ohu.ds_regrid_dict st) <= Ohu.success_count st)%nat /\
  (NoDup (regridded (zip ctrl_keys expr_keys)) ->
   keys (Ohu.ds_regrid_dict st) = regridded (zip ctrl_keys expr_keys) /\
   List.length (Ohu.ds_regrid_dict st) = Ohu.success_count st /\
   forall kk ds model, In kk (zip ctrl_keys expr_keys) ->
     model_of (fst kk) = Ok model -> body (fst kk) (snd kk) = inr ds ->
     dict_get (Ohu.ds_regrid_dict st) model = Some ds).
Proof.
  unfold Ohu.regrid_batch.
  destruct (Ohu.batch_loop body Ohu.batch_init (zip ctrl_keys expr_keys))
    as [st0|err] eqn:Hrun; cbn [bind]; [|discriminate].
  intros [= <-]. cbn [Ohu.ds_regrid_dict Ohu.success_count].
  destruct (batch_loop_dict _ _ _ Hrun) as (H1 & H2 & H3); [constructor|].
  cbn [Ohu.ds_regrid_dict Ohu.batch_init List.length keys map app] in H2, H3.
  assert (Hsc : Ohu.success_count st0
                = List.length (regridded (zip ctrl_keys expr_keys))).
  { destruct (Nat.eq_dec 0 0) as [_|]; [|congruence].
    assert (Hwf : forall kk, In kk (zip ctrl_keys expr_keys) ->
                             exists model, model_of (fst kk) = Ok model).
    { intros kk Hkk.
      destruct (Nat.lt_ge_cases (count_char "." (fst kk)) 2) as [Hlt|Hge].
      - rewrite (batch_loop_raises V body _ Ohu.batch_init) in Hrun
          by eauto.
        discriminate Hrun.
      - now apply model_of_dots. }
    destruct (batch_loop_ok V body _ Ohu.batch_init Hwf)
      as [st1 (Hrun1 & _ & Hsc1 & _)].
    rewrite Hrun in Hrun1. injection Hrun1 as <-.
    rewrite Hsc1. unfold regridded. now rewrite length_map. }
  split; [exact H1|]. split; [lia|].
  intros Hnd. destruct (H3 Hnd) as [Hk Hv]. simpl in Hk.
  split; [exact Hk|]. split; [|exact Hv].
  rewrite Hsc, <- Hk. unfold keys. now rewrite length_map.
Qed.

End BatchDict.

Arguments regridded {V}.

(** Two institutions with a model of one name: both are counted, the
    dictionary keeps one entry, the field of the second. *)
Example regrid_batch_same_name :
  exists st,
    Ohu.regrid_batch body_demo
      ["CMIP.A.ESM.piControl.Omon.gn"%string; "CMIP.BB.ESM.piControl.Omon.gn"%string]
      ["CMIP.A.ESM.1pctCO2.Omon.gn"%string; "CMIP.BB.ESM.1pctCO2.Omon.gn"%string]
    = Ok st /\
    Ohu.success_count st = 2%nat /\
    Ohu.ds_regrid_dict st = [("ESM"%string, 27%nat)].
Proof. eexists. split; [reflexivity|]. split; reflexivity. Qed.

Lemma regridded_models_in_dict_demo :
  exists st,
    Ohu.regrid_batch body_demo ctrl_keys_demo expr_keys_demo = Ok st /\
    keys (Ohu.ds_regrid_dict st) = ["CanESM5"%string; "GFDL-CM4"%string] /\
    List.length (Ohu.ds_regrid_dict st) = Ohu.success_count st.
Proof.
  assert (Hrun : exists st,
             Ohu.regrid_batch body_demo ctrl_keys_demo expr_keys_demo = Ok st)
    by (eexists; vm_compute; reflexivity).
  destruct Hrun as [st Hrun]. exists st. split; [exact Hrun|].
  destruct (regridded_models_in_dict nat body_demo _ _ _ Hrun)
    as (_ & _ & H).
  destruct H as (Hk & Hl & _).
  - vm_compute. repeat constructor; simpl; intuition discriminate.
  - split; [rewrite Hk; reflexivity | exact Hl].
Defined.

(** ** [add_cyclic_point] *)

(** [n] longitudes from [x0] on, [d] degrees apart. *)
Definition uniform_lon (x0 d : Q) (n : nat) : list Q :=
  map (fun i => x0 + of_nat i * d) (seq 0 n).

Lemma uniform_lon_length (x0 d : Q) (n : nat) :
  List.length (uniform_lon x0 d n) = n.
Proof. unfold uniform_lon. now rewrite length_map, length_seq. Qed.

Lemma uniform_lon_first_two (x0 d : Q) (n : nat) :
  exists rest,
    uniform_lon x0 d (S (S n))
      = (x0 + of_nat 0 * d) :: (x0 + of_nat 1 * d) :: rest.
Proof. eexists. reflexivity. Qed.

Lemma add_cyclic_point_period (obj : Ohu.lon_field) (p a : Q) (rest : list Q) :
  Ohu.lon obj = a :: rest ->
  Ohu.add_cyclic_point obj (Some p)
    = inr {| Ohu.lon := Ohu.lon obj ++ [a + p];
             Ohu.cells := map (fun row => row ++ firstn 1 row)
                              (Ohu.cells obj) |}.
Proof. intros H. unfold Ohu.add_cyclic_point. now rewrite H. Qed.

Lemma add_cyclic_point_default (obj : Ohu.lon_field) (a b : Q)
      (rest : list Q) :
  Ohu.lon obj = a :: b :: rest -> ~ b - a == 0 ->
  Ohu.add_cyclic_point obj None
    = Ohu.add_cyclic_point obj
        (Some (of_nat (List.length (Ohu.lon obj)) / (b - a))).
Proof.
  intros H Hne. unfold Ohu.add_cyclic_point, Ohu.default_period.
  rewrite H. now rewrite (nonzero_eqb _ Hne).
Qed.

Lemma same_point_iff (n d : Q) :
  ~ n == 0 -> ~ d == 0 -> (n / d == n * d <-> d * d == 1).
Proof.
  intros Hn Hd. split; intros H.
  - assert (E : n * (d * d - 1) == 0).
    { transitivity ((n * d - n / d) * d); [field; exact Hd|].
      rewrite H. ring. }
    apply Qmult_integral in E. destruct E as [E|E]; [contradiction | lra].
  - transitivity (n * (d * d) / d); [rewrite H; field; exact Hd|].
    field. exact Hd.
Qed.

(** On a grid of [n] longitudes [d] degrees apart, [add_cyclic_point]
    with the period [n * d] of the grid appends the longitude that
    continues the grid.  Without a period it works out
    [n / d] from the number of longitudes and the first spacing: the
    longitude it appends lies at [x0 + n / d], and this continues the
    grid only when the longitudes are one degree apart. *)
Theorem add_cyclic_point_on_uniform_grid (x0 d : Q) (n : nat)
        (cells : list (list float)) :
  (2 <= n)%nat -> ~ d == 0 ->
  let obj := {| Ohu.lon := uniform_lon x0 d n; Ohu.cells := cells |} in
  (exists r x, Ohu.add_cyclic_point obj (Some (of_nat n * d)) = inr r /\
     Ohu.lon r = uniform_lon x0 d n ++ [x] /\
     x == x0 + of_nat n * d /\
     Ohu.cells r = map (fun row => row ++ firstn 1 row) cells) /\
  (exists r x, Ohu.add_cyclic_point obj None = inr r /\
     Ohu.lon r = uniform_lon x0 d n ++ [x] /\
     x == x0 + of_nat n / d /\
     (x == x0 + of_nat n * d <-> d * d == 1)).
Proof.
  intros Hn Hd obj.
  destruct n as [|[|n]]; try lia.
  destruct (uniform_lon_first_two x0 d n) as [rest Hlon].
  set (m := S (S n)) in *.
  assert (Ha : x0 + of_nat 0 * d == x0) by (unfold of_nat; simpl; ring).
  assert (Hb : (x0 + of_nat 1 * d) - (x0 + of_nat 0 * d) == d)
    by (unfold of_nat; simpl; ring).
  assert (Hm : ~ of_nat m == 0) by (apply of_nat_nonzero; unfold m; lia).
  split.
  - rewrite (add_cyclic_point_period obj _ _ _ Hlon).
    eexists. eexists. split; [reflexivity|]. cbn [Ohu.lon Ohu.cells obj].
    split; [reflexivity|]. split; [now rewrite Ha | reflexivity].
  - rewrite (add_cyclic_point_default obj _ _ _ Hlon)
      by (intros H0; apply Hd; rewrite <- Hb; exact H0).
    rewrite (add_cyclic_point_period obj _ _ _ Hlon).
    eexists. eexists. split; [reflexivity|]. cbn [Ohu.lon Ohu.cells obj].
    split; [reflexivity|].
    rewrite uniform_lon_length.
    assert (Hx : x0 + of_nat 0 * d
                 + of_nat m / (x0 + of_nat 1 * d - (x0 + of_nat 0 * d))
                 == x0 + of_nat m / d)
      by (rewrite Hb, Ha; reflexivity).
    split; [exact Hx|].
    rewrite Hx, <- (same_point_iff (of_nat m) d Hm Hd).
    split; intros H; lra.
Qed.

Lemma add_cyclic_point_on_uniform_grid_demo :
  exists r x,
    Ohu.add_cyclic_point {| Ohu.lon := uniform_lon 0 2 180; Ohu.cells := [] |}
                         None = inr r /\
    Ohu.lon r = uniform_lon 0 2 180 ++ [x] /\ x == 90.
Proof.
  destruct (add_cyclic_point_on_uniform_grid 0 2 180 []) as [_ [r [x H]]].
  - repeat constructor.
  - discriminate.
  - destruct H as (Hr & Hl & Hx & _).
    exists r, x. split; [exact Hr|]. split; [exact Hl|].
    rewrite Hx. reflexivity.
Defined.

(** A grid of 360 longitudes one degree apart, as the notebook regrids
    to: the period given, 360, is the one worked out by default. *)
Example add_cyclic_point_one_degree :
  let obj := {| Ohu.lon := uniform_lon 0 1 360; Ohu.cells := [] |} in
  exists r, Ohu.add_cyclic_point obj None = inr r /\
            exists x, last (Ohu.lon r) 0 = x /\ x == 360.
Proof.
  eexists. split; [vm_compute; reflexivity|].
  eexists. split; [vm_compute; reflexivity | reflexivity].
Qed.

(** ** Anomalies from the control run *)

(** The values that are present in a series with missing markers. *)
Fixpoint present (l : list (option Q)) : list Q :=
  match l with
  | [] => []
  | Some q :: l' => q :: present l'
  | None :: l' => present l'
  end.

Lemma drop_nan_present (l : list (option Q)) :
  filter (fun x => negb (isnan x)) (map Stated.to_float l)
    = map Fin (present l).
Proof.
  induction l as [|[q|] l IH]; simpl; [reflexivity | now rewrite IH | exact IH].
Qed.

Lemma nanmean_present (l : list (option Q)) :
  present l <> [] ->
  exists m, nanmean (map Stated.to_float l) = Fin m /\
            m == sumQ (present l) / of_nat (List.length (present l)).
Proof.
  intros H. destruct (nanmean_finite (present l) H) as [m [Hm Hv]].
  exists m. split; [|exact Hv].
  unfold nanmean in *. now rewrite drop_nan_present, drop_nan_finite in *.
Qed.

Lemma sumQ_shift (m : Q) (l : list Q) :
  sumQ (map (fun x => x + - m) l) == sumQ l - of_nat (List.length l) * m.
Proof.
  induction l as [|x l IH].
  - unfold of_nat. simpl. ring.
  - cbn [map sumQ fold_right List.length].
    fold (sumQ (map (fun x => x + - m) l)). fold (sumQ l).
    rewrite IH, of_nat_S. ring.
Qed.

Lemma anomaly_present (m : Q) (l : list (option Q)) :
  map (fun v => fsub v (Fin m)) (map Stated.to_float l)
    = map Stated.to_float (map (option_map (fun x => x + - m)) l) /\
  present (map (option_map (fun x => x + - m)) l)
    = map (fun x => x + - m) (present l).
Proof.
  induction l as [|[q|] l [IH1 IH2]]; simpl; split; try reflexivity;
    try (now rewrite IH1); try (now rewrite IH2); assumption.
Qed.

(** [ds_anom] keeps the index, the experiments and the shape of the
    frame and takes the mean of the control run off every value.  The
    anomalies of the control run then have mean zero (the control run
    having at least one value, none infinite); a missing value stays
    missing.  A frame without the experiment ['piControl'] raises the
    [KeyError] of [.sel]. *)
Theorem ds_anom_centres_the_control (fr : Frame) :
  (forall i control,
     Ecs.position "piControl" (f_expts fr) = Some i ->
     nth_error (f_data fr) i = Some control ->
     exists fr', Ecs.ds_anom fr = Ok fr' /\
       f_index fr' = f_index fr /\ f_expts fr' = f_expts fr /\
       f_data fr'
         = map (map (fun v => fsub v (nanmean control))) (f_data fr) /\
       (forall oc, control = map Stated.to_float oc -> present oc <> [] ->
          exists row q, nth_error (f_data fr') i = Some row /\
                        nanmean row = Fin q /\ q == 0)) /\
  (Ecs.position "piControl" (f_expts fr) = None ->
   exists msg, Ecs.ds_anom fr = Raise (KeyError msg)) /\
  (forall m, fsub NaN m = NaN).
Proof.
  split; [|split].
  - intros i control Hpos Hrow. unfold Ecs.ds_anom, Ecs.sel_experiment.
    rewrite Hpos, Hrow. cbn [bind].
    eexists. split; [reflexivity|]. cbn [f_index f_expts f_data].
    repeat split.
    intros oc Hoc Hne.
    rewrite nth_error_map, Hrow. cbn [option_map].
    destruct (nanmean_present oc Hne) as [m [Hm Hv]].
    rewrite Hoc, Hm.
    destruct (anomaly_present m oc) as [Ha Hp].
    rewrite Ha.
    destruct (nanmean_present (map (option_map (fun x => x + - m)) oc))
      as [q [Hq Hqv]].
    { rewrite Hp. destruct (present oc); [congruence | discriminate]. }
    eexists. exists q. split; [reflexivity|].
    split; [exact Hq|].
    rewrite Hqv, Hp, sumQ_shift, length_map, Hv.
    assert (Hn : ~ of_nat (List.length (present oc)) == 0).
    { apply of_nat_nonzero. destruct (present oc); [congruence | simpl; lia]. }
    field. exact Hn.
  - intros Hpos. unfold Ecs.ds_anom, Ecs.sel_experiment. rewrite Hpos.
    eexists. reflexivity.
  - intros [ | | | ]; reflexivity.
Qed.

Example ds_anom_demo :
  Ecs.ds_anom {| f_index := [0; 1; 2]; f_expts := Ecs.expts;
                 f_data := [[Fin 1; Fin 3; NaN]; [Fin 4; Fin 5; Fin 6]] |}
  = Ok {| f_index := [0; 1; 2]; f_expts := Ecs.expts;
          f_data := [[Fin (1 + - ((1 + (3 + 0)) / 2));
                      Fin (3 + - ((1 + (3 + 0)) / 2)); NaN];
                     [Fin (4 + - ((1 + (3 + 0)) / 2));
                      Fin (5 + - ((1 + (3 + 0)) / 2));
                      Fin (6 + - ((1 + (3 + 0)) / 2))]] |}.
Proof. reflexivity. Qed.

(** ** Stacking the models *)








Definition frames_demo : dict Frame :=
  [("short"%string,
    {| f_index := [0; 1]; f_expts := Ecs.expts;
       f_data := [[Fin 10; Fin 11]; [Fin 20; Fin 21]] |});
   ("long"%string,
    {| f_index := [0; 1; 2]; f_expts := Ecs.expts;
       f_data := [[Fin 30; Fin 31; Fin 32]; [Fin 40; Fin 41; Fin 42]] |})].



(** The shorter model is padded with NaN, the longer one is kept
    whole. *)
Example concat_models_demo :
  Ecs.concat_models frames_demo
  = Ok {| Ecs.b_index := [0; 1; 2];
          Ecs.b_source_ids := ["short"%string; "long"%string];
          Ecs.b_data := [[[Fin 10; Fin 11; NaN]; [Fin 20; Fin 21; NaN]];
                         [[Fin 30; Fin 31; Fin 32];
                          [Fin 40; Fin 41; Fin 42]]] |}.
Proof. reflexivity. Qed.

(** ** The two estimators *)

(** Equal as floating-point values. *)
Definition feq (x y : float) : Prop :=
  match x, y with
  | Fin a, Fin b => a == b
  | PInf, PInf | NInf, NInf | NaN, NaN => True
  | _, _ => False
  end.

(** The same value, or the same exception. *)
Definition same_outcome (r s : result float) : Prop :=
  match r, s with
  | Ok x, Ok y => feq x y
  | Raise e, Raise e' => e = e'
  | _, _ => False
  end.

(** The coefficients of a fit are two numbers, or NaN both. *)
Lemma polyfit1_coefficients (x y : list float) (a b : float) :
  polyfit1 x y = Ok (a, b) ->
  (exists qa qb, a = Fin qa /\ b = Fin qb) \/ (a = NaN /\ b = NaN).
Proof.
  unfold polyfit1. destruct x as [|x0 x]; [discriminate|].
  destruct (negb _); [discriminate|].
  destruct (finite_values (x0 :: x)) as [xs|]; [|discriminate].
  destruct (finite_values y) as [ys|].
  - destruct (lstsq_line xs ys) as [[qa qb]|]; simpl; [|discriminate].
    intros [= <- <-]. left. eauto.
  - destruct (zero_column xs); [discriminate|].
    intros [= <- <-]. now right.
Qed.

Lemma compare_opp (q : Q) : (-1 * q ?= 0) = CompOpp (q ?= 0).
Proof.
  destruct q as [n d]. unfold Qcompare. simpl.
  rewrite !Z.mul_1_r. now destruct n.
Qed.

(** On sequences without missing values the estimate written on the
    panel by [calc_and_plot_ecs] is the value that [calc_ecs] stores, or
    the two raise the same exception. *)
Theorem estimators_agree (x y : list float) :
  drop_nan x = x -> drop_nan y = y ->
  same_outcome (Ecs.calc_ecs x y) (Ecs.calc_and_plot_ecs x y).
Proof.
  intros Hx Hy. unfold Ecs.calc_ecs, Ecs.calc_and_plot_ecs.
  rewrite Hx, Hy.
  destruct (polyfit1 x y) as [[a b]|e] eqn:E; cbn [bind same_outcome];
    [|reflexivity].
  destruct (polyfit1_coefficients x y a b E) as [[qa [qb [-> ->]]] | [-> ->]];
    [|exact I].
  cbn [fst snd fmul fdiv].
  destruct (Qeq_bool qa 0) eqn:Ea.
  - rewrite compare_opp.
    destruct (qb ?= 0); reflexivity.
  - cbn [fmul feq]. apply Qeq_bool_neq in Ea. field. exact Ea.
Qed.

Lemma estimators_agree_demo :
  same_outcome (Ecs.calc_ecs [Fin 1; Fin 2] [Fin 6; Fin 4])
               (Ecs.calc_and_plot_ecs [Fin 1; Fin 2] [Fin 6; Fin 4]).
Proof.
  exact (estimators_agree [Fin 1; Fin 2] [Fin 6; Fin 4] eq_refl eq_refl).
Defined.

Lemma finite_values_nan (l : list float) :
  In NaN l -> finite_values l = None.
Proof.
  induction l as [|v l IH]; intros Hin; [destruct Hin|].
  destruct Hin as [->|Hin]; [reflexivity|].
  simpl. destruct v; try reflexivity. now rewrite IH.
Qed.

Lemma sumQ_constant (xs : list Q) (v : Q) :
  (forall y, In y xs -> y == v) -> sumQ xs == of_nat (List.length xs) * v.
Proof.
  induction xs as [|x xs IH]; intros H.
  - unfold of_nat. simpl. ring.
  - cbn [sumQ fold_right List.length]. fold (sumQ xs).
    rewrite IH by (intros y Hy; apply H; now right).
    rewrite (H x (or_introl eq_refl)), of_nat_S. ring.
Qed.

(** The column of the temperatures has norm zero only when they are all
    zero. *)
Lemma zero_column_all_zero (xs : list Q) (v : Q) :
  zero_column xs = true -> In v xs -> v == 0.
Proof.
  unfold zero_column. rewrite andb_true_iff, !Qeq_bool_iff.
  intros [Hs H0] Hv.
  assert (Hall : forall y, In y xs -> y == v)
    by (intros y Hy; now apply (spread_zero xs Hs)).
  rewrite (sumQ_constant xs v Hall) in H0.
  assert (Hn : 0 < of_nat (List.length xs)).
  { apply of_nat_pos. destruct xs; [destruct Hv | simpl; lia]. }
  apply Qmult_integral in H0. destruct H0 as [H0|H0]; [lra | exact H0].
Qed.

(** [calc_ecs] does not leave out missing values.  On sequences of
    equal length a NaN among the temperatures makes the fit raise
    [LinAlgError]; a NaN among the imbalances, the temperatures being
    finite and not all zero, raises nothing and makes the estimate NaN;
    on empty sequences [TypeError] is raised.  [calc_and_plot_ecs]
    leaves the NaN out of each sequence, and raises [TypeError] when the
    two are then of different lengths. *)
Theorem calc_ecs_missing_values (x y : list float) :
  (x <> [] -> List.length x = List.length y -> In NaN x ->
   Ecs.calc_ecs x y
     = Raise (LinAlgError "SVD did not converge in Linear Least Squares")) /\
  (forall xs v, x = map Fin xs -> In v xs -> ~ v == 0 ->
     List.length x = List.length y -> In NaN y ->
     Ecs.calc_ecs x y = Ok NaN) /\
  (x = [] ->
   Ecs.calc_ecs x y = Raise (TypeError "expected non-empty vector for x")) /\
  (drop_nan x <> [] ->
   List.length (drop_nan x) <> List.length (drop_nan y) ->
   Ecs.calc_and_plot_ecs x y
     = Raise (TypeError "expected x and y to have same length")) /\
  (drop_nan x = [] ->
   Ecs.calc_and_plot_ecs x y
     = Raise (TypeError "expected non-empty vector for x")).
Proof.
  split; [|split; [|split; [|split]]].
  - intros Hne Hlen Hnan. unfold Ecs.calc_ecs, polyfit1.
    destruct x as [|x0 x]; [congruence|].
    rewrite Hlen, Nat.eqb_refl. cbn [negb].
    now rewrite (finite_values_nan _ Hnan).
  - intros xs v -> Hv Hv0 Hlen Hnan. unfold Ecs.calc_ecs, polyfit1.
    destruct xs as [|x0 xs]; [destruct Hv|].
    rewrite Hlen, Nat.eqb_refl. cbn [negb map].
    rewrite <- map_cons, finite_values_Fin, (finite_values_nan y Hnan).
    destruct (zero_column (x0 :: xs)) eqn:Ez.
    + exfalso. apply Hv0. now apply (zero_column_all_zero (x0 :: xs)).
    + reflexivity.
  - intros ->. reflexivity.
  - intros Hne Hlen. unfold Ecs.calc_and_plot_ecs, polyfit1.
    destruct (drop_nan x) as [|x0 x']; [congruence|].
    apply Nat.eqb_neq in Hlen. now rewrite Hlen.
  - intros H. unfold Ecs.calc_and_plot_ecs. now rewrite H.
Qed.

(** A missing imbalance: no exception, the estimate is NaN. *)
Example calc_ecs_missing_imbalance :
  Ecs.calc_ecs [Fin 1; Fin 2] [Fin 6; NaN] = Ok NaN.
Proof. reflexivity. Qed.

(** A missing temperature: the fit raises. *)
Example calc_ecs_missing_temperature :
  Ecs.calc_ecs [Fin 1; NaN] [Fin 6; Fin 4]
    = Raise (LinAlgError "SVD did not converge in Linear Least Squares").
Proof. reflexivity. Qed.

(** The missing values at different places but as many in both: the
    points left are paired by position, here (1, 6) and (2, 4), and an
    estimate comes out. *)
Example calc_and_plot_ecs_shifted_markers :
  exists q, Ecs.calc_and_plot_ecs [NaN; Fin 1; Fin 2] [Fin 6; NaN; Fin 4]
            = Ok (Fin q) /\ q == 4.
Proof. eexists. split; [vm_compute; reflexivity | reflexivity]. Qed.

(** ** The global mean of a uniform field *)

Lemma weighted_sum_uniform (c : Q) (cs : list Q) (g : list (list Q))
      (nlon : nat) :
  List.length g = List.length cs ->
  Forall (fun row => List.length row = nlon) g ->
  (forall row v, In row g -> In v row -> v == c) ->
  weighted_sum cs g == sumQ cs * (of_nat nlon * c).
Proof.
  unfold weighted_sum.
  revert g; induction cs as [|w cs IH]; intros [|row g] Hl Hg Hc;
    simpl in Hl; try discriminate.
  - simpl. ring.
  - inversion Hg as [|? ? Hrow Hrest]; subst.
    cbn [zip map sumQ fold_right fst snd].
    fold (sumQ (map (fun wr => fst wr * sumQ (snd wr)) (zip cs g))).
    fold (sumQ cs). fold (sumQ row).
    rewrite IH; [| now injection Hl | assumption
                 | intros r v Hr Hv; apply (Hc r v); [now right | assumption]].
    assert (Hsum : sumQ row == of_nat (List.length row) * c).
    { assert (Hv : forall v, In v row -> v == c)
        by (intros v Hv; apply (Hc row v); [now left | assumption]).
      clear - Hv. induction row as [|v row IHr].
      - unfold of_nat. simpl. ring.
      - cbn [sumQ fold_right List.length]. fold (sumQ row).
        rewrite IHr by (intros u Hu; apply Hv; now right).
        rewrite (Hv v (or_introl eq_refl)), of_nat_S. ring. }
    rewrite Hsum. ring.
Qed.

(** The value of the global mean at one time step, from the pieces of
    its computation. *)
Lemma global_mean_step (cosd : Q -> Q) (lat : list Q) (g : list (list Q))
      (nlon : nat) :
  ~ sumQ (map cosd lat) == 0 ->
  grid_ok (List.length lat) nlon g -> (0 < nlon)%nat ->
  exists q,
    nanmean (List.concat
               (times_weight (normalized (cos_weight cosd lat))
                             (map (map Fin) g)))
      = Fin q /\
    q == weighted_sum (map cosd lat) g / (of_nat nlon * sumQ (map cosd lat)).
Proof.
  intros Hs [Hrows Hcols] Hnlon.
  set (cs := map cosd lat) in *.
  assert (Hcw : cos_weight cosd lat = map Fin cs)
    by (unfold cos_weight, cs; now rewrite map_map).
  destruct (normalized_finite cs Hs) as [m (Hm & Hm0 & Hnorm & _)].
  assert (Hlen : List.length cs = List.length lat) by apply length_map.
  assert (Hpos : (0 < List.length lat)%nat).
  { rewrite <- Hlen. destruct cs; [exfalso; apply Hs; reflexivity | simpl; lia]. }
  rewrite Hcw, Hnorm, times_weight_finite, <- concat_map.
  assert (Hlg : List.length (List.concat (scaled (map (fun c => c / m) cs) g))
                = (List.length lat * nlon)%nat).
  { rewrite (length_scaled _ g nlon), Hrows; auto.
    now rewrite length_map, Hlen, Hrows. }
  destruct (nanmean_finite_length
              (List.concat (scaled (map (fun c => c / m) cs) g)))
    as [q [Hq Hqv]]; [rewrite Hlg; nia|].
  exists q. split; [exact Hq|].
  rewrite Hqv, Hlg, sumQ_scaled, weighted_sum_div, of_nat_mul, Hm, Hlen.
  field. repeat split; try assumption; now apply of_nat_nonzero.
Qed.

(** The global mean of a field that has the same value everywhere is
    that value, whatever the latitudes (their cosines not summing to
    zero): the weights average, they do not add up. *)
Theorem global_mean_of_uniform_field (cosd : Q -> Q) (ds : Dataset)
        (lat_name : string) (lat : list Q) (c : Q) (t nlon : nat)
        (g : list (list Q)) :
  get_lat_name ds = Ok lat_name ->
  dict_get (coords ds) lat_name = Some lat ->
  ~ sumQ (map cosd lat) == 0 ->
  nth_error (data ds) t = Some (map (map Fin) g) ->
  grid_ok (List.length lat) nlon g -> (0 < nlon)%nat ->
  (forall row v, In row g -> In v row -> v == c) ->
  exists r q, global_mean cosd ds = Ok r /\
              nth_error (r_data r) t = Some (Fin q) /\ q == c.
Proof.
  intros Hn Hl Hs Ht Hg Hnlon Hc.
  destruct (global_mean_step cosd lat g nlon Hs Hg Hnlon) as [q [Hq Hv]].
  unfold global_mean. rewrite Hn. cbn [bind].
  unfold dict_getitem. rewrite Hl. cbn [bind].
  eexists. exists q. split; [reflexivity|]. cbn [r_data].
  rewrite nth_error_map, Ht. cbn [option_map]. split; [now rewrite Hq|].
  destruct Hg as [Hrows Hcols].
  rewrite Hv, (weighted_sum_uniform c _ g nlon); try assumption.
  - field. split; [exact Hs | now apply of_nat_nonzero].
  - now rewrite length_map.
Qed.

(** A field that is 7 everywhere, on the grid of [ds_year]. *)
Definition ds_uniform : Dataset :=
  {| coords := [("lat"%string, [0; 60])];
     lat_dim := "lat"; lon_dim := "lon";
     time := [jan 1850];
     data := [[[Fin 7; Fin 7]; [Fin 7; Fin 7]]] |}.

Lemma global_mean_of_uniform_field_demo :
  exists r q, global_mean cosd_demo ds_uniform = Ok r /\
              nth_error (r_data r) 0 = Some (Fin q) /\ q == 7.
Proof.
  apply (global_mean_of_uniform_field cosd_demo ds_uniform "lat" [0; 60] 7
           0 2 [[7; 7]; [7; 7]]); try reflexivity.
  - vm_compute. discriminate.
  - split; [reflexivity | repeat constructor].
  - repeat constructor.
  - intros row v [<-|[<-|[]]] [<-|[<-|[]]]; reflexivity.
Defined.

(** ** The labels of the annual series *)

Lemma firstn_app_exact {A} (a b : list A) :
  firstn (List.length a) (a ++ b) = a.
Proof.
  induction a as [|x a IH]; simpl; [now destruct b | now rewrite IH].
Qed.

Lemma skipn_app_exact {A} (a b : list A) :
  skipn (List.length a) (a ++ b) = b.
Proof.
  induction a as [|x a IH]; simpl; [reflexivity | exact IH].
Qed.

(** A list made of whole blocks is cut into these blocks. *)
Lemma blocks_aux_concat {A} (w fuel : nat) (chunks : list (list A)) :
  (0 < w)%nat -> Forall (fun c => List.length c = w) chunks ->
  (List.length chunks <= fuel)%nat ->
  blocks_aux fuel w (List.concat chunks) = chunks.
Proof.
  intros Hw. revert fuel.
  induction chunks as [|c chunks IH]; intros fuel Hc Hf.
  - now destruct fuel.
  - inversion Hc as [|? ? Hlen Hrest]; subst.
    destruct fuel as [|fuel]; [simpl in Hf; lia|].
    cbn [List.concat blocks_aux].
    destruct (c ++ List.concat chunks) as [|x l] eqn:E.
    + destruct c; [simpl in Hw; lia | discriminate E].
    + rewrite <- E. rewrite firstn_app_exact, skipn_app_exact.
      rewrite IH; [reflexivity | assumption | simpl in Hf; lia].
Qed.

Lemma length_concat_blocks {A} (w : nat) (chunks : list (list A)) :
  Forall (fun c => List.length c = w) chunks ->
  List.length (List.concat chunks) = (List.length chunks * w)%nat.
Proof.
  induction 1 as [|c chunks Hc _ IH]; simpl; [reflexivity|].
  now rewrite length_app, IH, Hc.
Qed.

Lemma blocks_concat {A} (w : nat) (chunks : list (list A)) :
  (0 < w)%nat -> Forall (fun c => List.length c = w) chunks ->
  blocks w (List.concat chunks) = chunks.
Proof.
  intros Hw Hc. unfold blocks. apply blocks_aux_concat; try assumption.
  rewrite (length_concat_blocks w) by assumption. nia.
Qed.

Lemma coord_mean_year (y : Z) : coord_mean (repeat y 12) == inject_Z y.
Proof.
  unfold coord_mean. cbn [repeat map sumQ fold_right List.length].
  unfold of_nat. cbn [Z.of_nat Pos.of_succ_nat Pos.succ]. field.
Qed.

(** The months of the calendar years [ys], twelve for each. *)
Definition whole_years (ys : list Z) : list Z :=
  List.concat (map (fun y => repeat y 12) ys).

Lemma whole_years_blocks (ys : list Z) :
  Forall (fun c : list Z => List.length c = 12%nat)
         (map (fun y => repeat y 12) ys).
Proof.
  apply Forall_forall. intros c Hc. apply in_map_iff in Hc.
  destruct Hc as [y [<- _]]. apply repeat_length.
Qed.

Lemma coarsen_whole_years (ys : list Z) (vals : list float) :
  exists r,
    coarsen_mean 12 {| index := whole_years ys; svalues := vals |} = Ok r /\
    Forall2 (fun l y => l == inject_Z y) (index r) ys.
Proof.
  unfold coarsen_mean. cbn [index svalues]. unfold whole_years.
  rewrite (length_concat_blocks 12) by apply whole_years_blocks.
  rewrite length_map, Nat.Div0.mod_mul. cbn [Nat.eqb negb].
  eexists. split; [reflexivity|]. cbn [index].
  rewrite blocks_concat; [|lia | apply whole_years_blocks].
  rewrite map_map. clear.
  induction ys as [|y ys IH]; simpl; constructor.
  - apply coord_mean_year.
  - exact IH.
Qed.

Lemma whole_years_shift (y0 : Z) (ys : list Z) :
  map (fun y => (y - y0)%Z) (whole_years ys)
    = whole_years (map (fun y => (y - y0)%Z) ys).
Proof.
  unfold whole_years. rewrite concat_map, !map_map.
  reflexivity.
Qed.

(** For a run whose every calendar year has its twelve months, the
    annual series has one label for each year: in the sensitivity
    notebook the year counted from the first year of the run (0 for the
    first), in the surface-temperature notebook the calendar year. *)
Theorem annual_labels_of_whole_years (ds : Dataset) (y0 : Z) (ys : list Z)
        (vals : list float) :
  map year (time ds) = whole_years (y0 :: ys) ->
  (exists yc r,
     Ecs.year_coord ds = Ok yc /\
     coarsen_mean 12 {| index := yc; svalues := vals |} = Ok r /\
     Forall2 (fun l y => l == inject_Z (y - y0)) (index r) (y0 :: ys) /\
     exists l rest, index r = l :: rest /\ l == 0) /\
  (exists yc r,
     Gmst.year_coord ds = Ok yc /\
     coarsen_mean 12 {| index := yc; svalues := vals |} = Ok r /\
     Forall2 (fun l y => l == inject_Z y) (index r) (y0 :: ys)).
Proof.
  intros Ht. split.
  - assert (Hyc : Ecs.year_coord ds
                  = Ok (whole_years (map (fun y => (y - y0)%Z) (y0 :: ys)))).
    { unfold Ecs.year_coord. rewrite Ht.
      rewrite <- whole_years_shift.
      unfold whole_years at 1. cbn [map List.concat repeat app].
      reflexivity. }
    destruct (coarsen_whole_years (map (fun y => (y - y0)%Z) (y0 :: ys)) vals)
      as [r [Hr Hf]].
    exists (whole_years (map (fun y => (y - y0)%Z) (y0 :: ys))), r.
    split; [exact Hyc|]. split; [exact Hr|].
    assert (Hf' : Forall2 (fun l y => l == inject_Z (y - y0))
                          (index r) (y0 :: ys)).
    { clear - Hf. remember (y0 :: ys) as l eqn:El. clear El.
      remember (index r) as idx eqn:Ei. clear Ei. revert idx Hf.
      induction l as [|y l IH]; intros idx Hf; inversion Hf; subst;
        constructor; auto. }
    split; [exact Hf'|].
    inversion Hf' as [|l y rest ys' Hl Hrest]; subst.
    exists l, rest. split; [reflexivity|].
    rewrite Hl, Z.sub_diag. reflexivity.
  - destruct (coarsen_whole_years (y0 :: ys) vals) as [r [Hr Hf]].
    exists (whole_years (y0 :: ys)), r.
    split; [unfold Gmst.year_coord; now rewrite Ht|].
    split; [exact Hr | exact Hf].
Qed.

Lemma annual_labels_of_whole_years_demo :
  exists yc r,
    Ecs.year_coord (ds_two_years 1850) = Ok yc /\
    coarsen_mean 12 {| index := yc; svalues := repeat (Fin 1) 24 |} = Ok r /\
    Forall2 (fun l y => l == inject_Z (y - 1850)) (index r) [1850%Z; 1851%Z].
Proof.
  destruct (annual_labels_of_whole_years (ds_two_years 1850) 1850 [1851%Z] (repeat (Fin 1) 24)
              eq_refl) as [[yc [r (Hy & Hr & Hf & _)]] _].
  exists yc, r. repeat split; assumption.
Defined.

(** ** The two key lists are paired by [zip] *)

Lemma compare_le_trans (a b c : string) :
  String.compare a b <> Gt -> String.compare b c <> Gt ->
  String.compare a c <> Gt.
Proof.
  revert b c. induction a as [|x a IH]; intros [|y b] [|z c]; simpl;
    try congruence.
  unfold Ascii.compare.
  destruct (N.compare_spec (N_of_ascii x) (N_of_ascii y)) as [Exy|Lxy|Gxy];
    destruct (N.compare_spec (N_of_ascii y) (N_of_ascii z)) as [Eyz|Lyz|Gyz];
    destruct (N.compare_spec (N_of_ascii x) (N_of_ascii z)) as [Exz|Lxz|Gxz];
    try congruence; try lia; try (intros; discriminate).
  apply IH.
Qed.

Lemma str_le_trans (a b c : string) : str_le a b -> str_le b c -> str_le a c.
Proof.
  unfold str_le, String.leb. intros Hab Hbc.
  pose proof (compare_le_trans a b c) as H.
  destruct (String.compare a b); try discriminate;
    destruct (String.compare b c); try discriminate;
    destruct (String.compare a c); try reflexivity;
    exfalso; apply H; congruence.
Qed.

Lemma str_le_refl (a : string) : str_le a a.
Proof. destruct (String.leb_total a a); assumption. Qed.

Lemma sorted_StronglySorted (l : list string) :
  Sorted str_le l -> StronglySorted str_le l.
Proof.
  apply Sorted_StronglySorted. intros a b c. apply str_le_trans.
Qed.

(** A sorted list is determined by its items. *)
Lemma sorted_unique (l1 l2 : list string) :
  Sorted str_le l1 -> Sorted str_le l2 -> Permutation l1 l2 -> l1 = l2.
Proof.
  intros H1 H2. apply sorted_StronglySorted in H1, H2.
  revert l2 H2. induction H1 as [|a l1 Hs IH Ha]; intros l2 H2 Hp.
  - now apply Permutation_nil in Hp.
  - destruct H2 as [|b l2 Hs2 Hb].
    + apply Permutation_sym, Permutation_nil in Hp. discriminate.
    + assert (Hab : a = b).
      { assert (Ia : In a (b :: l2))
          by (apply (Permutation_in _ Hp); now left).
        assert (Ib : In b (a :: l1))
          by (apply (Permutation_in _ (Permutation_sym Hp)); now left).
        destruct Ia as [->|Ia]; [reflexivity|].
        destruct Ib as [->|Ib]; [reflexivity|].
        rewrite Forall_forall in Ha, Hb.
        apply String.leb_antisym; [apply Ha, Ib | apply Hb, Ia]. }
      subst b. f_equal. apply IH; [assumption|].
      now apply Permutation_cons_inv in Hp.
Qed.

Lemma sorted_eq (l l' : list string) :
  Sorted str_le l' -> Permutation l l' -> sorted l = l'.
Proof.
  intros Hs Hp. apply sorted_unique; [apply sorted_Sorted | exact Hs |].
  now rewrite sorted_Permutation.
Qed.

(** Two strings that differ at some position before either ends. *)
Fixpoint diverge (p q : string) : bool :=
  match p, q with
  | String a p', String b q' =>
      if Ascii.eqb a b then diverge p' q' else true
  | _, _ => false
  end.

Lemma ascii_compare_refl (a : ascii) : Ascii.compare a a = Eq.
Proof. unfold Ascii.compare. apply N.compare_refl. Qed.

Lemma ascii_compare_neq (a b : ascii) :
  Ascii.eqb a b = false -> Ascii.compare a b <> Eq.
Proof.
  intros H E. apply Ascii.compare_eq_iff in E. subst.
  now rewrite Ascii.eqb_refl in H.
Qed.

(** What follows the position where two strings differ has no part in
    their order. *)
Lemma compare_diverge (p q t u : string) :
  diverge p q = true ->
  String.compare (p ++ t) (q ++ u) = String.compare p q.
Proof.
  revert q. induction p as [|a p IH]; intros [|b q]; simpl; try discriminate.
  destruct (Ascii.eqb a b) eqn:E.
  - apply Ascii.eqb_eq in E. subst. rewrite ascii_compare_refl. apply IH.
  - intros _. apply ascii_compare_neq in E.
    now destruct (Ascii.compare a b).
Qed.

Definition apart (ps : list string) : Prop :=
  forall p q, In p ps -> In q ps -> p = q \/ diverge p q = true.

Lemma str_le_suffix (ps : list string) (t p q : string) :
  apart ps -> In p ps -> In q ps ->
  str_le p q -> str_le (p ++ t) (q ++ t).
Proof.
  intros Ha Hp Hq Hle. destruct (Ha p q Hp Hq) as [->|Hd].
  - apply str_le_refl.
  - unfold str_le, String.leb in *. now rewrite compare_diverge.
Qed.

Lemma sorted_map_suffix (ps : list string) (t : string) :
  apart ps ->
  sorted (map (fun p => (p ++ t)%string) ps)
    = map (fun p => (p ++ t)%string) (sorted ps).
Proof.
  intros Ha. apply sorted_eq.
  - assert (Hin : forall p, In p (sorted ps) -> In p ps)
      by (intros p; apply sorted_In).
    pose proof (sorted_StronglySorted _ (sorted_Sorted ps)) as Hs.
    induction Hs as [|a l Hs IH Hall]; simpl; [constructor|].
    apply StronglySorted_Sorted. constructor.
    + apply sorted_StronglySorted, IH. intros p Hp. apply Hin. now right.
    + rewrite Forall_forall in *. intros x Hx.
      apply in_map_iff in Hx. destruct Hx as [q [<- Hq]].
      apply (str_le_suffix ps); auto.
      * apply Hin. now left.
      * apply Hin. now right.
  - apply Permutation_map, Permutation_sym, sorted_Permutation.
Qed.

Lemma Permutation_filter {A} (f : A -> bool) (l l' : list A) :
  Permutation l l' -> Permutation (filter f l) (filter f l').
Proof.
  induction 1 as [|x l l' _ IH|x y l|l l' l'' _ IH1 _ IH2]; simpl.
  - constructor.
  - destruct (f x); [now constructor | exact IH].
  - destruct (f x), (f y); try reflexivity. apply perm_swap.
  - now transitivity (filter f l').
Qed.

Lemma filter_all {A} (f : A -> bool) (l : list A) :
  (forall x, In x l -> f x = true) -> filter f l = l.
Proof.
  induction l as [|x l IH]; intros H; simpl; [reflexivity|].
  rewrite (H x (or_introl eq_refl)). f_equal. apply IH.
  intros y Hy. apply H. now right.
Qed.

Lemma filter_none {A} (f : A -> bool) (l : list A) :
  (forall x, In x l -> f x = false) -> filter f l = [].
Proof.
  induction l as [|x l IH]; intros H; simpl; [reflexivity|].
  rewrite (H x (or_introl eq_refl)). apply IH.
  intros y Hy. apply H. now right.
Qed.

Lemma zip_same {A B C} (f : A -> B) (g : A -> C) (l : list A) :
  zip (map f l) (map g l) = map (fun x => (f x, g x)) l.
Proof. induction l as [|x l IH]; simpl; [reflexivity | now rewrite IH]. Qed.

(** The keys of the models [ps], each once with the control suffix [cs]
    and once with the experiment suffix [es]. *)
Definition keys_of (ps : list string) (cs es : string) : list string :=
  map (fun p => (p ++ cs)%string) ps ++ map (fun p => (p ++ es)%string) ps.

(** When every model has its two keys, which begin alike and end with
    the same two suffixes, and the beginnings of two models differ at
    some position, then the two sorted lists hold the models in the same
    order: [zip(ctrl_keys, expr_keys)] pairs each control key with the
    experiment key of the same model. *)
Theorem sorted_split_list_pairs (ps : list string) (cs es : string)
        (a_list : list string) :
  apart ps ->
  (forall p, In p ps -> contains "piControl" (p ++ cs) = true) ->
  (forall p, In p ps -> contains "piControl" (p ++ es) = false) ->
  (forall p, In p ps -> contains "1pctCO2" (p ++ es) = true) ->
  Permutation a_list (keys_of ps cs es) ->
  let ctrl_keys := fst (fst (Ohu.sorted_split_list a_list)) in
  let expr_keys := snd (fst (Ohu.sorted_split_list a_list)) in
  zip ctrl_keys expr_keys
    = map (fun p => ((p ++ cs)%string, (p ++ es)%string)) (sorted ps) /\
  snd (Ohu.sorted_split_list a_list) = [].
Proof.
  intros Ha Hc He1 He2 Hp. rewrite sorted_split_list_eq. cbn [fst snd].
  assert (Fc : filter is_ctrl (keys_of ps cs es)
               = map (fun p => (p ++ cs)%string) ps).
  { unfold keys_of. rewrite filter_app, filter_all, filter_none.
    - apply app_nil_r.
    - intros x Hx. apply in_map_iff in Hx. destruct Hx as [p [<- Hx]].
      unfold is_ctrl. now apply He1.
    - intros x Hx. apply in_map_iff in Hx. destruct Hx as [p [<- Hx]].
      unfold is_ctrl. now apply Hc. }
  assert (Fe : filter is_expr (keys_of ps cs es)
               = map (fun p => (p ++ es)%string) ps).
  { unfold keys_of. rewrite filter_app, filter_none, filter_all.
    - reflexivity.
    - intros x Hx. apply in_map_iff in Hx. destruct Hx as [p [<- Hx]].
      unfold is_expr. now rewrite He1, He2.
    - intros x Hx. apply in_map_iff in Hx. destruct Hx as [p [<- Hx]].
      unfold is_expr. now rewrite Hc. }
  assert (Fo : filter is_other (keys_of ps cs es) = []).
  { apply filter_none. intros x Hx. unfold keys_of in Hx.
    apply in_app_iff in Hx. unfold is_other.
    destruct Hx as [Hx|Hx]; apply in_map_iff in Hx;
      destruct Hx as [p [<- Hx]].
    - now rewrite Hc.
    - now rewrite He1, He2. }
  split.
  - rewrite (sorted_eq (filter is_ctrl a_list)
                       (map (fun p => (p ++ cs)%string) (sorted ps))).
    + rewrite (sorted_eq (filter is_expr a_list)
                         (map (fun p => (p ++ es)%string) (sorted ps))).
      * apply zip_same.
      * rewrite <- sorted_map_suffix by assumption. apply sorted_Sorted.
      * rewrite (Permutation_filter is_expr _ _ Hp), Fe.
        apply Permutation_map, Permutation_sym, sorted_Permutation.
    + rewrite <- sorted_map_suffix by assumption. apply sorted_Sorted.
    + rewrite (Permutation_filter is_ctrl _ _ Hp), Fc.
      apply Permutation_map, Permutation_sym, sorted_Permutation.
  - apply (Permutation_filter is_other) in Hp. rewrite Fo in Hp.
    apply Permutation_sym, Permutation_nil in Hp. now rewrite Hp.
Qed.

Definition models_demo : list string :=
  ["CMIP.NCAR.CESM2."; "CMIP.NCAR.CESM2-FV2."; "CMIP.CCCma.CanESM5."]%string.

Definition dset_keys_demo : list string :=
  ["CMIP.NCAR.CESM2-FV2.1pctCO2.Omon.gn"; "CMIP.NCAR.CESM2.piControl.Omon.gn";
   "CMIP.CCCma.CanESM5.piControl.Omon.gn"; "CMIP.NCAR.CESM2.1pctCO2.Omon.gn";
   "CMIP.NCAR.CESM2-FV2.piControl.Omon.gn";
   "CMIP.CCCma.CanESM5.1pctCO2.Omon.gn"]%string.

Lemma in_models_demo (P : string -> Prop) :
  P "CMIP.NCAR.CESM2."%string -> P "CMIP.NCAR.CESM2-FV2."%string ->
  P "CMIP.CCCma.CanESM5."%string ->
  forall p, In p models_demo -> P p.
Proof.
  intros H1 H2 H3 p [<-|[<-|[<-|[]]]]; assumption.
Qed.

Lemma sorted_split_list_pairs_demo :
  zip (fst (fst (Ohu.sorted_split_list dset_keys_demo)))
      (snd (fst (Ohu.sorted_split_list dset_keys_demo)))
  = [("CMIP.CCCma.CanESM5.piControl.Omon.gn",
      "CMIP.CCCma.CanESM5.1pctCO2.Omon.gn");
     ("CMIP.NCAR.CESM2-FV2.piControl.Omon.gn",
      "CMIP.NCAR.CESM2-FV2.1pctCO2.Omon.gn");
     ("CMIP.NCAR.CESM2.piControl.Omon.gn",
      "CMIP.NCAR.CESM2.1pctCO2.Omon.gn")]%string.
Proof.
  refine (proj1 (sorted_split_list_pairs models_demo "piControl.Omon.gn"
                   "1pctCO2.Omon.gn" dset_keys_demo _ _ _ _ _)).
  - intros p q Hp Hq. revert q Hq. revert p Hp.
    apply (in_models_demo (fun p => forall q, In q models_demo ->
                                     p = q \/ diverge p q = true));
      apply in_models_demo; (now left) || (now right).
  - apply in_models_demo; reflexivity.
  - apply in_models_demo; reflexivity.
  - apply in_models_demo; reflexivity.
  - unfold dset_keys_demo, keys_of, models_demo. cbn [map app String.append].
    apply (Permutation_cons_app
             ["CMIP.NCAR.CESM2.piControl.Omon.gn";
              "CMIP.NCAR.CESM2-FV2.piControl.Omon.gn";
              "CMIP.CCCma.CanESM5.piControl.Omon.gn";
              "CMIP.NCAR.CESM2.1pctCO2.Omon.gn"]%string
             ["CMIP.CCCma.CanESM5.1pctCO2.Omon.gn"]%string).
    cbn [app]. apply perm_skip.
    apply (Permutation_cons_app
             ["CMIP.NCAR.CESM2-FV2.piControl.Omon.gn"]%string
             ["CMIP.NCAR.CESM2.1pctCO2.Omon.gn";
              "CMIP.CCCma.CanESM5.1pctCO2.Omon.gn"]%string).
    cbn [app]. apply perm_swap.
Defined.

(** ** The window of the first 150 years *)

(** Rows labelled by consecutive years, the first one [k]. *)
Definition labelled_from (k : nat) (rows : list Ecs.anom) : Prop :=
  forall i r, nth_error rows i = Some r ->
              Ecs.yr r == inject_Z (Z.of_nat (k + i)).

Lemma labelled_from_tail (k : nat) (r : Ecs.anom) (rows : list Ecs.anom) :
  labelled_from k (r :: rows) ->
  Ecs.yr r == inject_Z (Z.of_nat k) /\ labelled_from (S k) rows.
Proof.
  intros H. split.
  - rewrite (H O r eq_refl). now rewrite Nat.add_0_r.
  - intros i r' Hi. rewrite (H (S i) r' Hi).
    now rewrite Nat.add_succ_r.
Qed.

Lemma in_window (k : nat) (x : Q) :
  x == inject_Z (Z.of_nat k) ->
  Qle_bool 0 x && Qle_bool x 149 = (k <? 150)%nat.
Proof.
  intros Hx.
  assert (H0 : Qle_bool 0 x = true).
  { apply Qle_bool_iff. rewrite Hx. unfold Qle; simpl. lia. }
  rewrite H0. cbn [andb].
  destruct (Nat.ltb_spec k 150) as [Hk|Hk].
  - apply Qle_bool_iff. rewrite Hx. unfold Qle; simpl. lia.
  - destruct (Qle_bool x 149) eqn:E; [|reflexivity].
    apply Qle_bool_iff in E. rewrite Hx in E. unfold Qle in E; simpl in E.
    lia.
Qed.

Lemma sel_year_from (k : nat) (rows : list Ecs.anom) :
  labelled_from k rows ->
  Ecs.sel_year 0 149 rows = firstn (150 - k) rows.
Proof.
  revert k. induction rows as [|r rows IH]; intros k H.
  - now rewrite firstn_nil.
  - apply labelled_from_tail in H. destruct H as [Hr Hrest].
    unfold Ecs.sel_year in *. cbn [filter].
    rewrite (in_window k _ Hr).
    destruct (Nat.ltb_spec k 150) as [Hk|Hk].
    + replace (150 - k)%nat with (S (150 - S k)) by lia.
      cbn [firstn]. f_equal. now apply IH.
    + replace (150 - k)%nat with O by lia. cbn [firstn].
      rewrite (IH (S k) Hrest).
      now replace (150 - S k)%nat with O by lia.
Qed.

(** On annual rows labelled 0, 1, 2, ..., [slice(0, 149)] takes both its
    ends: the window holds the first 150 years of the run, or the whole
    run when it is shorter, and the sensitivity is fitted on these. *)
Theorem first_150_years_window (rows : list Ecs.anom) :
  labelled_from 0 rows ->
  let w := Ecs.first_150_years in
  Ecs.sel_year (fst w) (snd w) rows = firstn 150 rows /\
  List.length (Ecs.sel_year (fst w) (snd w) rows)
    = Nat.min 150 (List.length rows) /\
  Ecs.ds_abrupt_ecs rows w
    = Ecs.calc_ecs (map Ecs.tas (firstn 150 rows))
                   (map Ecs.imbalance (firstn 150 rows)).
Proof.
  intros H w. subst w.
  unfold Ecs.ds_abrupt_ecs, Ecs.first_150_years. cbn [fst snd].
  rewrite (sel_year_from 0 rows H). cbn [Nat.sub].
  split; [reflexivity|]. split; [apply length_firstn | reflexivity].
Qed.

Definition annual_row (i : nat) : Ecs.anom :=
  {| Ecs.yr := inject_Z (Z.of_nat i);
     Ecs.tas := Fin (inject_Z (Z.of_nat i));
     Ecs.imbalance := Fin 1 |}.

Definition rows_200 : list Ecs.anom := map annual_row (seq 0 200).

Lemma labelled_from_seq (k n : nat) :
  labelled_from k (map annual_row (seq k n)).
Proof.
  revert k. induction n as [|n IH]; intros k i r Hi.
  - now destruct i.
  - destruct i as [|i]; cbn [seq map nth_error] in Hi.
    + injection Hi as <-. now rewrite Nat.add_0_r.
    + rewrite Nat.add_succ_r. exact (IH (S k) i r Hi).
Qed.

Lemma first_150_years_window_demo :
  List.length (Ecs.sel_year 0 149 rows_200) = 150%nat.
Proof.
  exact (proj1 (proj2 (first_150_years_window rows_200
                         (labelled_from_seq 0 200)))).
Defined.
